(** * Octasphere mesh generator (filament-utils, [generateOctasphere])

    A shallow embedding of the Kotlin octasphere generator and the
    verification of its specification.

    - Kotlin [Int] is a 32-bit two's-complement integer: modelled as [Z]
      with the wrap-around written out ([wrap32]).
    - Kotlin [Float] is kept abstract behind the interface [FloatOps]; all
      structural results (counts, indices, buffers, assertions, divisions)
      hold for every implementation of that interface.  The geometric
      results are stated for the instance of exact real arithmetic
      ([R_FloatOps]), i.e. for the algorithm with rounding idealised away.
    - Exceptions and the JVM [assert] are modelled by an error monad; the
      monad also carries a ghost trace that records the divisor of every
      division the program executes.
    - [VertexArray], [TriangleArray] and [ByteBuffer] are records holding a
      list that is updated by index, with the bounds checks of the JVM. *)

From Stdlib Require Import ZArith List Bool Reals Lra Lia.
From stdpp Require Import base list.

Open Scope Z_scope.

(** ** 32-bit integers *)

Module Int32.

Definition wrap32 (n : Z) : Z := (n + 2 ^ 31) mod 2 ^ 32 - 2 ^ 31.

Definition add (a b : Z) : Z := wrap32 (a + b).
Definition sub (a b : Z) : Z := wrap32 (a - b).
Definition mul (a b : Z) : Z := wrap32 (a * b).
(** [a shl n] uses the five low bits of the shift distance. *)
Definition shl (a n : Z) : Z := wrap32 (Z.shiftl a (Z.land n 31)).
(** [Int.toShort()] keeps the 16 low bits, sign-extended. *)
Definition toShort (n : Z) : Z := (n + 2 ^ 15) mod 2 ^ 16 - 2 ^ 15.

Definition MAX_VALUE : Z := 2 ^ 31 - 1.
Definition MIN_VALUE : Z := - 2 ^ 31.

End Int32.

Declare Scope int32_scope.
Delimit Scope int32_scope with i32.
Arguments Int32.add (a b)%_i32.
Arguments Int32.sub (a b)%_i32.
Arguments Int32.mul (a b)%_i32.
Arguments Int32.shl (a n)%_i32.
Infix "+" := Int32.add : int32_scope.
Infix "-" := Int32.sub : int32_scope.
Infix "*" := Int32.mul : int32_scope.
Infix "shl" := Int32.shl (at level 30, no associativity) : int32_scope.

(** [Short.MAX_VALUE] *)
Definition Short_MAX_VALUE : Z := 32767.

(** Modelled from the spec: [clamp] belongs to the math utilities of the
    package, which are not part of the sources; the spec describes the
    subdivision level as an "integer clamped to [0, 5]". *)
Definition clamp (v lo hi : Z) : Z :=
  if v <? lo then lo else if hi <? v then hi else v.

(** ** Floating-point interface *)

Class FloatOps (F : Type) : Type := {
  fofZ : Z -> F;            (* [Int.toFloat()] and the integral literals *)
  fhalf : F;                (* the literal [0.5f] *)
  FPI : F;
  fadd : F -> F -> F;
  fsub : F -> F -> F;
  fmul : F -> F -> F;
  fdiv : F -> F -> F;
  fmax : F -> F -> F;
  fsin : F -> F;
  fcos : F -> F;
  facos : F -> F
}.

Declare Scope float_scope.
Delimit Scope float_scope with f.
Infix "+" := fadd : float_scope.
Infix "-" := fsub : float_scope.
Infix "*" := fmul : float_scope.

(** Modelled from the spec: [Float3], [Float4], [dot] and [cross] belong to
    the math utilities of the package, which are not part of the sources;
    they are the usual componentwise vectors. *)
Module Float3.
Record t (F : Type) : Type := make { x : F; y : F; z : F }.
Arguments make {F} _ _ _.
Arguments x {F} _.
Arguments y {F} _.
Arguments z {F} _.
End Float3.

Module Float4.
Record t (F : Type) : Type := make { x : F; y : F; z : F; w : F }.
Arguments make {F} _ _ _ _.
Arguments x {F} _.
Arguments y {F} _.
Arguments z {F} _.
Arguments w {F} _.
Definition xyz {F} (q : t F) : Float3.t F := Float3.make (x q) (y q) (z q).
(** the constructor [Float4(v: Float3, w: Float)] *)
Definition of_xyz_w {F} (v : Float3.t F) (w : F) : t F :=
  make (Float3.x v) (Float3.y v) (Float3.z v) w.
End Float4.

Section VectorMath.
Context {F : Type} `{FloatOps F}.

Definition dot (a b : Float3.t F) : F :=
  (Float3.x a * Float3.x b + Float3.y a * Float3.y b + Float3.z a * Float3.z b)%f.

Definition cross (a b : Float3.t F) : Float3.t F :=
  Float3.make
    (Float3.y a * Float3.z b - Float3.z a * Float3.y b)%f
    (Float3.z a * Float3.x b - Float3.x a * Float3.z b)%f
    (Float3.x a * Float3.y b - Float3.y a * Float3.x b)%f.

(** [Float3 * Float] *)
Definition scale3 (a : Float3.t F) (s : F) : Float3.t F :=
  Float3.make (Float3.x a * s)%f (Float3.y a * s)%f (Float3.z a * s)%f.

(** [Float3 + Float3] *)
Definition add3 (a b : Float3.t F) : Float3.t F :=
  Float3.make (Float3.x a + Float3.x b)%f (Float3.y a + Float3.y b)%f
              (Float3.z a + Float3.z b)%f.

(** [eulers[i]] *)
Definition get3 (a : Float3.t F) (i : Z) : F :=
  if i =? 0 then Float3.x a else if i =? 1 then Float3.y a else Float3.z a.

End VectorMath.

(** ** Exceptions, assertions and the ghost trace of divisors *)

Inductive Throwable : Type :=
  | AssertionError
  | ArithmeticException
  | ArrayIndexOutOfBoundsException
  | NegativeArraySizeException
  | IllegalArgumentException
  | BufferOverflowException.

(** The divisors of the divisions executed so far, most recent first. *)
Definition Trace : Type := list Z.

Definition M (A : Type) : Type := Trace -> (Throwable + A) * Trace.

#[export] Instance M_ret : MRet M := fun A a tr => (inr a, tr).

#[export] Instance M_bind : MBind M := fun A B k m tr =>
  match m tr with
  | (inl e, tr') => (inl e, tr')
  | (inr a, tr') => k a tr'
  end.

Definition throw {A : Type} (e : Throwable) : M A := fun tr => (inl e, tr).

(** Ghost operation: record the divisor of a division. *)
Definition divisor (d : Z) : M unit := fun tr => (inr tt, d :: tr).

(** Run a computation from the empty trace. *)
Definition run {A : Type} (m : M A) : (Throwable + A) * Trace := m [].

Definition outcome {A : Type} (m : M A) : Throwable + A := fst (run m).
Definition divisors {A : Type} (m : M A) : Trace := snd (run m).

Definition returns {A : Type} (m : M A) : bool :=
  match outcome m with inr _ => true | inl _ => false end.

(** [Int / Int]: truncated division, [ArithmeticException] on zero. *)
Definition idiv (a d : Z) : M Z :=
  divisor d ;;
  if d =? 0 then throw ArithmeticException
  else mret (Int32.wrap32 (Z.quot a d)).

(** [Float / Int] and [Float / Int.toFloat()]: never throws. *)
Definition fdivInt {F : Type} `{FloatOps F} (a : F) (d : Z) : M F :=
  divisor d ;; mret (fdiv a (fofZ d)).

Fixpoint foldM {A S : Type} (body : S -> A -> M S) (s : S) (l : list A) : M S :=
  match l with
  | [] => mret s
  | a :: l' => s' ← body s a; foldM body s' l'
  end.

(** [a until b] *)
Definition until (a b : Z) : list Z := seqZ a (b - a).

(** The JVM the program runs on: whether [assert] is checked ([-ea]), and
    [ByteOrder.nativeOrder()]. *)
Inductive ByteOrder : Type := BIG_ENDIAN | LITTLE_ENDIAN.

Record JVM : Type := {
  assertionsEnabled : bool;
  nativeOrder : ByteOrder
}.

Definition assert (jvm : JVM) (cond : bool) : M unit :=
  if assertionsEnabled jvm && negb cond then throw AssertionError else mret tt.

(** ** Byte buffers

    A buffer cell is either a raw byte or one byte of the IEEE-754 image
    of a [Float] ([Float.floatToRawIntBits]), which the interface keeps
    abstract: [FloatByte v k] is byte [k] of the image of [v], byte 0 being
    the least significant. *)

Inductive Cell (F : Type) : Type :=
  | Raw (b : Z)
  | FloatByte (v : F) (k : Z).
Arguments Raw {F} b.
Arguments FloatByte {F} v k.

Module ByteBuffer.
Record t (F : Type) : Type := make {
    bytes : list (Cell F);
    position : Z;
    order : ByteOrder
  }.
Arguments make {F} _ _ _.
Arguments bytes {F} _.
Arguments position {F} _.
Arguments order {F} _.

Section Ops.
Context {F : Type}.

Definition capacity (buf : t F) : Z := Z.of_nat (length (bytes buf)).

(** [ByteBuffer.allocate(capacity)]: zero-filled, position 0,
    big-endian until told otherwise. *)
Definition allocate (cap : Z) : M (t F) :=
  if cap <? 0 then throw IllegalArgumentException
  else mret (make (replicate (Z.to_nat cap) (Raw 0)) 0 BIG_ENDIAN).

Definition withOrder (bo : ByteOrder) (buf : t F) : t F :=
  make (bytes buf) (position buf) bo.

(** Store the cells [cs] at the current position and advance it. *)
Fixpoint store (cs : list (Cell F)) (at_ : nat) (l : list (Cell F)) : list (Cell F) :=
  match cs with
  | [] => l
  | c :: cs' => store cs' (S at_) (<[at_ := c]> l)
  end.

Definition put (cs : list (Cell F)) (buf : t F) : M (t F) :=
  let n := Z.of_nat (length cs) in
  if capacity buf - position buf <? n then throw BufferOverflowException
  else mret (make (store cs (Z.to_nat (position buf)) (bytes buf))
                  (position buf + n) (order buf)).

(** Multi-byte values are laid out according to the buffer's order. *)
Definition arrange (bo : ByteOrder) (lsbFirst : list (Cell F)) : list (Cell F) :=
  match bo with
  | LITTLE_ENDIAN => lsbFirst
  | BIG_ENDIAN => rev lsbFirst
  end.

(** The four bytes of a [Float] and the two bytes of a [Short]. *)
Definition floatCells (bo : ByteOrder) (v : F) : list (Cell F) :=
  arrange bo [FloatByte v 0; FloatByte v 1; FloatByte v 2; FloatByte v 3].

Definition shortCells (bo : ByteOrder) (s : Z) : list (Cell F) :=
  arrange bo [Raw (Z.land s 255); Raw (Z.land (Z.shiftr s 8) 255)].

Definition putFloat (v : F) (buf : t F) : M (t F) :=
  put (floatCells (order buf) v) buf.

Definition putShort (s : Z) (buf : t F) : M (t F) :=
  put (shortCells (order buf) s) buf.

End Ops.
End ByteBuffer.

(** ** The mesh and its constants *)

Definition kFloatSize : Z := 4.
Definition kOctasphereMaxSubdivisions : Z := 5.
Definition kOctaspherePositionSize : Z := (3 * kFloatSize)%i32.
Definition kOctasphereTangentSize : Z := (4 * kFloatSize)%i32.
Definition kOctasphereIndexSize : Z := 2.

Record OctasphereMesh (F : Type) : Type := {
  numVertices : Z;
  numIndices : Z;
  positions : ByteBuffer.t F;
  tangents : ByteBuffer.t F;
  indices : ByteBuffer.t F
}.
Arguments Build_OctasphereMesh {F} _ _ _ _ _.
Arguments numVertices {F} _.
Arguments numIndices {F} _.
Arguments positions {F} _.
Arguments tangents {F} _.
Arguments indices {F} _.

(** ** The arrays

    [data] is allocated once and written through the cursor [index].  Every
    [Float3] stored in a [VertexArray] is a freshly built object, so no two
    slots alias and the in-place scaling of [applyScale] is a map. *)

Module VertexArray.
Record t (F : Type) : Type := make { data : list (Float3.t F); index : Z }.
Arguments make {F} _ _.
Arguments data {F} _.
Arguments index {F} _.
End VertexArray.

Module TriangleArray.
Record t : Type := make { data : list Z; index : Z }.
End TriangleArray.

(** [array[i]] with the bounds check of the JVM. *)
Definition arrayGet {A : Type} (l : list A) (i : Z) : M A :=
  if (i <? 0) || (Z.of_nat (length l) <=? i)
  then throw ArrayIndexOutOfBoundsException
  else match l !! Z.to_nat i with
       | Some a => mret a
       | None => throw ArrayIndexOutOfBoundsException
       end.

(** [array[i] = v] with the bounds check of the JVM. *)
Definition arraySet {A : Type} (l : list A) (i : Z) (v : A) : M (list A) :=
  if (i <? 0) || (Z.of_nat (length l) <=? i)
  then throw ArrayIndexOutOfBoundsException
  else mret (<[Z.to_nat i := v]> l).

(** [Array(count) { init }] and [IntArray(count)] *)
Definition arrayNew {A : Type} (count : Z) (init : A) : M (list A) :=
  if count <? 0 then throw NegativeArraySizeException
  else mret (replicate (Z.to_nat count) init).

(** [Float3()] *)
Definition zero3 {F : Type} `{FloatOps F} : Float3.t F :=
  Float3.make (fofZ 0) (fofZ 0) (fofZ 0).

Section Octasphere.
Context {F : Type} `{FloatOps F}.
Variable jvm : JVM.

Local Abbreviation Float3 := (Float3.t F).
Local Abbreviation Float4 := (Float4.t F).
Local Abbreviation VertexArray := (VertexArray.t F).
Local Abbreviation ByteBuffer := (ByteBuffer.t F).

Definition VertexArray_new (count : Z) : M VertexArray :=
  data ← arrayNew count zero3;
  mret (VertexArray.make data 0).

Definition VertexArray_write (this : VertexArray) (v : Float3) : M VertexArray :=
  data ← arraySet (VertexArray.data this) (VertexArray.index this) v;
  mret (VertexArray.make data (VertexArray.index this + 1)%i32).

Definition VertexArray_toBuffer (this : VertexArray) : M ByteBuffer :=
  buf ← ByteBuffer.allocate
          (Z.of_nat (length (VertexArray.data this)) * kOctaspherePositionSize)%i32;
  let buf := ByteBuffer.withOrder (nativeOrder jvm) buf in
  foldM (fun buf v =>
           buf ← ByteBuffer.putFloat (Float3.x v) buf;
           buf ← ByteBuffer.putFloat (Float3.y v) buf;
           ByteBuffer.putFloat (Float3.z v) buf)
        buf (VertexArray.data this).

Definition TriangleArray_new (count : Z) : M TriangleArray.t :=
  data ← arrayNew (count * 3)%i32 0;
  mret (TriangleArray.make data 0).

Definition TriangleArray_write1 (this : TriangleArray.t) (a : Z) : M TriangleArray.t :=
  data ← arraySet (TriangleArray.data this) (TriangleArray.index this) a;
  mret (TriangleArray.make data (TriangleArray.index this + 1)%i32).

Definition TriangleArray_write (this : TriangleArray.t) (a b c : Z) : M TriangleArray.t :=
  this ← TriangleArray_write1 this a;
  this ← TriangleArray_write1 this b;
  TriangleArray_write1 this c.

Definition TriangleArray_toBuffer (this : TriangleArray.t) : M ByteBuffer :=
  buf ← ByteBuffer.allocate
          (Z.of_nat (length (TriangleArray.data this)) * kOctasphereIndexSize)%i32;
  let buf := ByteBuffer.withOrder (nativeOrder jvm) buf in
  foldM (fun buf i =>
           assert jvm (i <=? Short_MAX_VALUE) ;;
           ByteBuffer.putShort (Int32.toShort i) buf)
        buf (TriangleArray.data this).

(** *** Quaternions *)

Definition quaternionFromRotation (axis : Float3) (radians : F) : Float4 :=
  Float4.of_xyz_w (scale3 axis (fsin (fhalf * radians)%f)) (fcos (fhalf * radians)%f).

Definition quaternionRotateVector (quaternion : Float4) (src : Float3) : Float3 :=
  let t := scale3 (cross (Float4.xyz quaternion) src) (fofZ 2) in
  let p := cross (Float4.xyz quaternion) t in
  add3 (add3 (scale3 t (Float4.w quaternion)) src) p.

Definition quaternionFromEulers (eulers : Float3) : Float4 :=
  let roll := get3 eulers 0 in
  let pitch := get3 eulers 1 in
  let yaw := get3 eulers 2 in
  let halfRoll := (roll * fhalf)%f in
  let sR := fsin halfRoll in
  let cR := fcos halfRoll in
  let halfPitch := (pitch * fhalf)%f in
  let sP := fsin halfPitch in
  let cP := fcos halfPitch in
  let halfYaw := (yaw * fhalf)%f in
  let sY := fsin halfYaw in
  let cY := fcos halfYaw in
  let x := ((sR * cP * cY) + (cR * sP * sY))%f in
  let y := ((cR * sP * cY) - (sR * cP * sY))%f in
  let z := ((cR * cP * sY) + (sR * sP * cY))%f in
  let w := ((cR * cP * cY) - (sR * sP * sY))%f in
  Float4.make x y z w.

(** *** The generator *)

(** Source comment: Generates a point sequence along the surface of a unit
    sphere from pointA to pointB. *)
Definition writeGeodesic (positions : VertexArray) (pointA pointB : Float3)
    (numSegments : Z) : M VertexArray :=
  positions ← VertexArray_write positions pointA;
  if numSegments =? 0 then mret positions
  else
    let angleBetweenEndpoints := facos (dot pointA pointB) in
    delta ← fdivInt angleBetweenEndpoints numSegments;
    let axis := cross pointA pointB in
    positions ← foldM (fun positions i =>
                         let q := quaternionFromRotation axis (delta * fofZ i)%f in
                         let v := quaternionRotateVector q pointA in
                         VertexArray_write positions v)
                      positions (until 1 numSegments);
    VertexArray_write positions pointB.

Definition octants : list Float3 :=
  [ Float3.make (fofZ 0) (fofZ 0) (fofZ 0); Float3.make (fofZ 0) (fofZ 1) (fofZ 0);
    Float3.make (fofZ 0) (fofZ 2) (fofZ 0); Float3.make (fofZ 0) (fofZ 3) (fofZ 0);
    Float3.make (fofZ 1) (fofZ 0) (fofZ 0); Float3.make (fofZ 1) (fofZ 0) (fofZ 1);
    Float3.make (fofZ 1) (fofZ 0) (fofZ 2); Float3.make (fofZ 1) (fofZ 0) (fofZ 3) ].

(** Source comment: Fills an array with the vertex positions of a
    subdivided octahedron with radius = 1. *)
Definition generateUnitSphere (positions : VertexArray) (subdivisions : Z)
    : M VertexArray :=
  let divisions := clamp subdivisions 0 kOctasphereMaxSubdivisions in
  let verticesPerLine := (1 shl divisions + 1)%i32 in
  verticesPerPatch ← idiv (verticesPerLine * (verticesPerLine + 1))%i32 2;
  (* Tessellate one-eighth of the octasphere. *)
  positions ← foldM (fun positions i =>
      theta ← fdivInt (FPI * fhalf * fofZ i)%f (verticesPerLine - 1)%i32;
      let pointA := Float3.make (fofZ 0) (fsin theta) (fcos theta) in
      let pointB := Float3.make (fcos theta) (fsin theta) (fofZ 0) in
      let numSegments := (verticesPerLine - 1 - i)%i32 in
      writeGeodesic positions pointA pointB numSegments)
    positions (until 0 verticesPerLine);
  (* Make 7 rotated copies of the original patch. *)
  positions ← foldM (fun positions octant =>
      o ← arrayGet octants octant;
      let eulerAngles := scale3 (scale3 o fhalf) FPI in
      let quat := quaternionFromEulers eulerAngles in
      foldM (fun positions i =>
               src ← arrayGet (VertexArray.data positions) i;
               let vert := quaternionRotateVector quat src in
               VertexArray_write positions vert)
            positions (until 0 verticesPerPatch))
    positions (until 1 8);
  assert jvm (VertexArray.index positions =?
              Z.of_nat (length (VertexArray.data positions))) ;;
  mret positions.

Definition applyScale (positions : VertexArray) (scale : F) : VertexArray :=
  VertexArray.make
    (map (fun v => Float3.make (Float3.x v * scale)%f (Float3.y v * scale)%f
                               (Float3.z v * scale)%f)
         (VertexArray.data positions))
    (VertexArray.index positions).

(** The offsets [tx], [ty], [tz] computed at the head of
    [translateCorners]. *)
Definition cornerOffsets (dimensions : Float3) (radius : F) : M (F * F * F) :=
  let r2 := (radius * fofZ 2)%f in
  let width := fmax (Float3.x dimensions) r2 in
  let height := fmax (Float3.y dimensions) r2 in
  let depth := fmax (Float3.z dimensions) r2 in
  tx ← fdivInt (width - r2)%f 2;
  ty ← fdivInt (height - r2)%f 2;
  tz ← fdivInt (depth - r2)%f 2;
  mret (tx, ty, tz).

(** The body of the source function ends after the offsets, on a TODO:
    the loop that would move the vertices is commented out. *)
Definition translateCorners (positions : VertexArray) (dimensions : Float3)
    (radius : F) (subdivisions : Z) : M VertexArray :=
  '(tx, ty, tz) ← cornerOffsets dimensions radius;
  mret positions.

(** The indices of the first patch, written column by column. *)
Definition firstPatch (triangles : TriangleArray.t) (verticesPerLine : Z)
    : M TriangleArray.t :=
  '(triangles, j0) ← foldM (fun '(triangles, j0) colIndex =>
      let colHeight := (verticesPerLine - 1 - colIndex)%i32 in
      let j1 := (j0 + 1)%i32 in
      let j2 := (j0 + colHeight + 1)%i32 in
      let j3 := (j0 + colHeight + 2)%i32 in
      triangles ← foldM (fun triangles row =>
          triangles ← TriangleArray_write triangles
                        (j0 + row)%i32 (j1 + row)%i32 (j2 + row)%i32;
          TriangleArray_write triangles
            (j2 + row)%i32 (j1 + row)%i32 (j3 + row)%i32)
        triangles (until 0 (colHeight - 1)%i32);
      let row := (colHeight - 1)%i32 in
      triangles ← TriangleArray_write triangles
                    (j0 + row)%i32 (j1 + row)%i32 (j2 + row)%i32;
      mret (triangles, j2))
    (triangles, 0) (until 0 (verticesPerLine - 1)%i32);
  mret triangles.

(** The indices of the other seven patches: the first patch, shifted. *)
Definition shiftedPatches (triangles : TriangleArray.t)
    (verticesPerPatch indicesPerPatch : Z) : M TriangleArray.t :=
  foldM (fun triangles octant =>
      let offset := (verticesPerPatch * octant)%i32 in
      foldM (fun triangles i =>
               a ← arrayGet (TriangleArray.data triangles) i;
               TriangleArray_write1 triangles (a + offset)%i32)
            triangles (until 0 indicesPerPatch))
    triangles (until 1 8).

Definition generateIndices (triangles : TriangleArray.t) (subdivisions : Z)
    : M TriangleArray.t :=
  let verticesPerLine := (1 shl subdivisions + 1)%i32 in
  verticesPerPatch ← idiv (verticesPerLine * (verticesPerLine + 1))%i32 2;
  let trianglesPerPatch :=
    ((verticesPerLine - 2) * (verticesPerLine - 1) + verticesPerLine - 1)%i32 in
  let indicesPerPatch := (trianglesPerPatch * 3)%i32 in
  (* Compute the indices for the first patch. *)
  triangles ← firstPatch triangles verticesPerLine;
  (* Shift the indices for the other 7 patches. *)
  triangles ← shiftedPatches triangles verticesPerPatch indicesPerPatch;
  (* TODO: generate quads *)
  assert jvm (TriangleArray.index triangles =?
              Z.of_nat (length (TriangleArray.data triangles))) ;;
  mret triangles.

Definition generateOctasphere (dimensions : Float3) (radius : F) (subdivisions : Z)
    : M (OctasphereMesh F) :=
  let actualSubdivisions := clamp subdivisions 0 kOctasphereMaxSubdivisions in
  let verticesPerLine := (1 shl actualSubdivisions + 1)%i32 in
  verticesPerPatch ← idiv (verticesPerLine * (verticesPerLine + 1))%i32 2;
  let trianglesPerPatch :=
    ((verticesPerLine - 2) * (verticesPerLine - 1) + verticesPerLine - 1)%i32 in
  let totalVertices := (verticesPerPatch * 8)%i32 in
  let numConnectionQuads := ((4 + 4 + 4) * (verticesPerLine - 1) + 6)%i32 in
  let totalIndices := ((trianglesPerPatch * 8 + numConnectionQuads * 2) * 3)%i32 in

    positions ← VertexArray_new totalVertices;
    positions ← generateUnitSphere positions actualSubdivisions;
    normalsBuffer ← VertexArray_toBuffer positions;
    let positions := applyScale positions radius in
    positions ← translateCorners positions dimensions radius actualSubdivisions;
    positionsBuffer ← VertexArray_toBuffer positions;

    count ← idiv totalIndices 3;
    triangles ← TriangleArray_new count;
    triangles ← generateIndices triangles actualSubdivisions;

    tangents ← ByteBuffer.allocate (totalVertices * kOctasphereTangentSize)%i32;
    let tangents := ByteBuffer.withOrder (nativeOrder jvm) tangents in

    indexBuffer ← TriangleArray_toBuffer triangles;
    mret (Build_OctasphereMesh totalVertices totalIndices positionsBuffer tangents
            indexBuffer).

End Octasphere.

(** ** Specification-level descriptions

    What the array code computes, as plain lists: the sequence of values
    written through the cursor of an array or a buffer. *)

(** An array or buffer of capacity [cap] whose first cells hold [pre] and
    whose remaining cells still hold their initial value. *)
Definition filled {E : Type} (zero : E) (cap : nat) (pre : list E) : list E :=
  pre ++ replicate (cap - length pre) zero.

Definition VA {F : Type} `{FloatOps F} (cap : nat) (pre : list (Float3.t F))
    : VertexArray.t F :=
  VertexArray.make (filled zero3 cap pre) (Z.of_nat (length pre)).

Definition TA (cap : nat) (pre : list Z) : TriangleArray.t :=
  TriangleArray.make (filled 0 cap pre) (Z.of_nat (length pre)).

Definition BB {F : Type} (cap : nat) (bo : ByteOrder) (pre : list (Cell F))
    : ByteBuffer.t F :=
  ByteBuffer.make (filled (Raw 0) cap pre) (Z.of_nat (length pre)) bo.

(** A buffer written up to its capacity. *)
Definition fullBuffer {F : Type} (bo : ByteOrder) (cells : list (Cell F))
    : ByteBuffer.t F :=
  ByteBuffer.make cells (Z.of_nat (length cells)) bo.

(** Packed [3 x float32] records and packed [uint16] values. *)
Definition encodePositions {F : Type} (bo : ByteOrder) (l : list (Float3.t F))
    : list (Cell F) :=
  flat_map (fun v => ByteBuffer.floatCells bo (Float3.x v) ++
                     ByteBuffer.floatCells bo (Float3.y v) ++
                     ByteBuffer.floatCells bo (Float3.z v)) l.

Definition encodeIndices {F : Type} (bo : ByteOrder) (l : list Z) : list (Cell F) :=
  flat_map (fun i => ByteBuffer.shortCells bo (Int32.toShort i)) l.

Section Descriptions.
Context {F : Type} `{FloatOps F}.

Local Abbreviation Float3 := (Float3.t F).
Local Abbreviation Float4 := (Float4.t F).

(** The points [writeGeodesic] writes. *)
Definition geodesicPoints (pointA pointB : Float3) (numSegments : Z) : list Float3 :=
  pointA ::
  (if numSegments =? 0 then []
   else
     let delta := fdiv (facos (dot pointA pointB)) (fofZ numSegments) in
     let axis := cross pointA pointB in
     map (fun i => quaternionRotateVector
                     (quaternionFromRotation axis (delta * fofZ i)%f) pointA)
         (until 1 numSegments)
     ++ [pointB]).

(** The interior point number [i] of the geodesic from [pointA] to
    [pointB] cut into [numSegments] segments. *)
Definition geodesicPoint (pointA pointB : Float3) (numSegments i : Z) : Float3 :=
  quaternionRotateVector
    (quaternionFromRotation (cross pointA pointB)
       (fdiv (facos (dot pointA pointB)) (fofZ numSegments) * fofZ i)%f)
    pointA.

(** The angle and the end points of line [i] of the first patch. *)
Definition lineAngle (verticesPerLine i : Z) : F :=
  fdiv (FPI * fhalf * fofZ i)%f (fofZ (verticesPerLine - 1)%i32).

Definition lineStart (theta : F) : Float3 :=
  Float3.make (fofZ 0) (fsin theta) (fcos theta).

Definition lineEnd (theta : F) : Float3 :=
  Float3.make (fcos theta) (fsin theta) (fofZ 0).

(** The points of line [i] of the first patch. *)
Definition linePoints (verticesPerLine i : Z) : list Float3 :=
  let theta := lineAngle verticesPerLine i in
  geodesicPoints (lineStart theta) (lineEnd theta) (verticesPerLine - 1 - i)%i32.

Definition patchPoints (verticesPerLine : Z) : list Float3 :=
  flat_map (linePoints verticesPerLine) (until 0 verticesPerLine).

Definition octantQuaternion (octant : Z) : Float4 :=
  quaternionFromEulers
    (scale3 (scale3 (default zero3 (octants !! Z.to_nat octant)) fhalf) FPI).

Definition levelVerticesPerLine (level : Z) : Z := (1 shl level + 1)%i32.

Definition levelVerticesPerPatch (level : Z) : Z :=
  let verticesPerLine := levelVerticesPerLine level in
  Int32.wrap32 (Z.quot (verticesPerLine * (verticesPerLine + 1))%i32 2).

Definition levelTrianglesPerPatch (level : Z) : Z :=
  let verticesPerLine := levelVerticesPerLine level in
  ((verticesPerLine - 2) * (verticesPerLine - 1) + verticesPerLine - 1)%i32.

Definition levelIndicesPerPatch (level : Z) : Z :=
  (levelTrianglesPerPatch level * 3)%i32.

Definition levelTotalVertices (level : Z) : Z := (levelVerticesPerPatch level * 8)%i32.

Definition levelConnectionQuads (level : Z) : Z :=
  ((4 + 4 + 4) * (levelVerticesPerLine level - 1) + 6)%i32.

Definition levelTotalIndices (level : Z) : Z :=
  ((levelTrianglesPerPatch level * 8 + levelConnectionQuads level * 2) * 3)%i32.

(** The points [generateUnitSphere] writes: the first patch, then its seven
    rotated copies. *)
Definition spherePoints (level : Z) : list Float3 :=
  let patch := patchPoints (levelVerticesPerLine level) in
  patch ++
  flat_map (fun octant =>
              map (quaternionRotateVector (octantQuaternion octant))
                  (take (Z.to_nat (levelVerticesPerPatch level)) patch))
           (until 1 8).

Definition scalePoint (scale : F) (v : Float3) : Float3 :=
  Float3.make (Float3.x v * scale)%f (Float3.y v * scale)%f (Float3.z v * scale)%f.

(** The vertex positions of the mesh. *)
Definition meshPoints (radius : F) (level : Z) : list Float3 :=
  map (scalePoint radius) (spherePoints level).

(** The indices one column of the first patch contributes. *)
Definition columnIndices (verticesPerLine j0 colIndex : Z) : list Z :=
  let colHeight := (verticesPerLine - 1 - colIndex)%i32 in
  let j1 := (j0 + 1)%i32 in
  let j2 := (j0 + colHeight + 1)%i32 in
  let j3 := (j0 + colHeight + 2)%i32 in
  flat_map (fun row => [ (j0 + row)%i32; (j1 + row)%i32; (j2 + row)%i32;
                         (j2 + row)%i32; (j1 + row)%i32; (j3 + row)%i32 ])
           (until 0 (colHeight - 1)%i32)
  ++ (let row := (colHeight - 1)%i32 in
      [ (j0 + row)%i32; (j1 + row)%i32; (j2 + row)%i32 ]).

Definition nextColumn (verticesPerLine j0 colIndex : Z) : Z :=
  (j0 + (verticesPerLine - 1 - colIndex) + 1)%i32.

Fixpoint columnsIndices (verticesPerLine j0 : Z) (cols : list Z) : list Z :=
  match cols with
  | [] => []
  | c :: cs => columnIndices verticesPerLine j0 c ++
               columnsIndices verticesPerLine (nextColumn verticesPerLine j0 c) cs
  end.

Definition patchIndices (verticesPerLine : Z) : list Z :=
  columnsIndices verticesPerLine 0 (until 0 (verticesPerLine - 1)%i32).

(** The indices [generateIndices] writes: the first patch, then the same
    triangles shifted into the seven other patches. *)
Definition sphereIndices (level : Z) : list Z :=
  let patch := patchIndices (levelVerticesPerLine level) in
  let verticesPerPatch := levelVerticesPerPatch level in
  let indicesPerPatch := Z.to_nat (levelIndicesPerPatch level) in
  patch ++
  flat_map (fun octant =>
              let offset := (verticesPerPatch * octant)%i32 in
              map (fun a => (a + offset)%i32) (take indicesPerPatch patch))
           (until 1 8).

(** An index that names a vertex of the mesh and passes the range check of
    [TriangleArray.toBuffer]. *)
Definition validIndex (numVertices i : Z) : bool :=
  (0 <=? i) && (i <? numVertices) && (i <=? Short_MAX_VALUE).

(** The content of the index array handed to [toBuffer]: the written
    indices, then the cells of the connection quads, never written. *)
Definition meshIndices (level : Z) : list Z :=
  filled 0 (Z.to_nat (levelTotalIndices level)) (sphereIndices level).

(** The mesh [generateOctasphere] returns. *)
Definition octasphereMesh (bo : ByteOrder) (radius : F) (level : Z) : OctasphereMesh F :=
  Build_OctasphereMesh
    (levelTotalVertices level)
    (levelTotalIndices level)
    (fullBuffer bo (encodePositions bo (meshPoints radius level)))
    (ByteBuffer.make
       (replicate (Z.to_nat (levelTotalVertices level * kOctasphereTangentSize)%i32) (Raw 0))
       0 bo)
    (fullBuffer bo (encodeIndices bo (meshIndices level))).

End Descriptions.

(** ** Judgements on computations *)

(** [m] returns [a], whatever the divisions recorded so far. *)
Definition evaluates {A : Type} (m : M A) (a : A) : Prop :=
  forall tr, exists tr', m tr = (inr a, tr').

(** [m] throws [e]. *)
Definition throws {A : Type} (m : M A) (e : Throwable) : Prop :=
  forall tr, exists tr', m tr = (inl e, tr').

(** No division by zero: [m] only adds non-zero divisors to the trace. *)
Definition nonzeroDivisors (tr : Trace) : Prop := Forall (fun d => d <> 0) tr.

Definition divisionSafe {A : Type} (m : M A) : Prop :=
  forall tr, nonzeroDivisors tr -> nonzeroDivisors (snd (m tr)).

(** ** Exact real arithmetic

    The instance of the floating-point interface in which no operation
    rounds.  The geometric statements are about this instance. *)

#[export] Instance R_FloatOps : FloatOps R := {
  fofZ := IZR;
  fhalf := (1 / 2)%R;
  FPI := PI;
  fadd := Rplus;
  fsub := Rminus;
  fmul := Rmult;
  fdiv := Rdiv;
  fmax := Rmax;
  fsin := sin;
  fcos := cos;
  facos := acos
}.

(** Squared Euclidean length. *)
Definition normSq (v : Float3.t R) : R :=
  (Float3.x v * Float3.x v + Float3.y v * Float3.y v + Float3.z v * Float3.z v)%R.

Definition vec (a b c : R) : Float3.t R := Float3.make a b c.

(** The 8 x 3 corners of the eight faces of the octahedron with vertices
    [(+-1,0,0)], [(0,+-1,0)], [(0,0,+-1)], in the order of the patches. *)
Definition octahedronCorners : list (Float3.t R) :=
  [ vec 0 0 1; vec 1 0 0; vec 0 1 0;
    vec 1 0 0; vec 0 0 (-1); vec 0 1 0;
    vec 0 0 (-1); vec (-1) 0 0; vec 0 1 0;
    vec (-1) 0 0; vec 0 0 1; vec 0 1 0;
    vec 0 (-1) 0; vec 1 0 0; vec 0 0 1;
    vec 0 (-1) 0; vec 0 0 1; vec (-1) 0 0;
    vec 0 (-1) 0; vec (-1) 0 0; vec 0 0 (-1);
    vec 0 (-1) 0; vec 0 0 (-1); vec 1 0 0 ]%R.

(** The six vertices of that octahedron. *)
Definition octahedronVertices : list (Float3.t R) :=
  [ vec 1 0 0; vec (-1) 0 0; vec 0 1 0; vec 0 (-1) 0; vec 0 0 1; vec 0 0 (-1) ]%R.

Definition quat (a b c d : R) : Float4.t R := Float4.make a b c d.

(** The squared length of the middle point of the geodesic that
    [generateUnitSphere] draws on line 2 of the first patch at level 2:
    about 0.99663. *)
Definition midpointNormSq : R := (1 - 3 * (7 - 4 * sqrt 3) / 64)%R.

(** The two JVM configurations. *)
Definition jvmWith (ea : bool) (bo : ByteOrder) : JVM :=
  {| assertionsEnabled := ea; nativeOrder := bo |}.

(** * Verification *)

(** ** The monad *)

Lemma evaluates_ret {A : Type} (a : A) : evaluates (mret a) a.
Proof. intros tr. exists tr. reflexivity. Qed.

Lemma evaluates_bind {A B : Type} (m : M A) (k : A -> M B) (a : A) (b : B) :
  evaluates m a -> evaluates (k a) b -> evaluates (m ≫= k) b.
Proof.
  intros Hm Hk tr.
  destruct (Hm tr) as [tr1 E1]. destruct (Hk tr1) as [tr2 E2].
  exists tr2. unfold mbind, M_bind. rewrite E1. exact E2.
Qed.

Lemma throws_bind_l {A B : Type} (m : M A) (k : A -> M B) (e : Throwable) :
  throws m e -> throws (m ≫= k) e.
Proof.
  intros Hm tr. destruct (Hm tr) as [tr1 E1].
  exists tr1. unfold mbind, M_bind. rewrite E1. reflexivity.
Qed.

Lemma throws_bind_r {A B : Type} (m : M A) (k : A -> M B) (a : A) (e : Throwable) :
  evaluates m a -> throws (k a) e -> throws (m ≫= k) e.
Proof.
  intros Hm Hk tr.
  destruct (Hm tr) as [tr1 E1]. destruct (Hk tr1) as [tr2 E2].
  exists tr2. unfold mbind, M_bind. rewrite E1. exact E2.
Qed.

Lemma evaluates_outcome {A : Type} (m : M A) (a : A) :
  evaluates m a -> outcome m = inr a.
Proof. intros Hm. unfold outcome, run. destruct (Hm []) as [tr E]. rewrite E. reflexivity. Qed.

Lemma throws_outcome {A : Type} (m : M A) (e : Throwable) :
  throws m e -> outcome m = inl e.
Proof. intros Hm. unfold outcome, run. destruct (Hm []) as [tr E]. rewrite E. reflexivity. Qed.

Lemma evaluates_idiv (a d : Z) :
  d <> 0 -> evaluates (idiv a d) (Int32.wrap32 (Z.quot a d)).
Proof.
  intros Hd tr. unfold idiv, divisor, mbind, M_bind, mret, M_ret.
  destruct (Z.eqb_spec d 0) as [->|_]; [contradiction|]. eexists. reflexivity.
Qed.

Lemma evaluates_fdivInt {F : Type} `{FloatOps F} (a : F) (d : Z) :
  evaluates (fdivInt a d) (fdiv a (fofZ d)).
Proof. intros tr. eexists. reflexivity. Qed.

Lemma evaluates_assert_true (jvm : JVM) : evaluates (assert jvm true) tt.
Proof. intros tr. exists tr. unfold assert. rewrite andb_false_r. reflexivity. Qed.

Lemma evaluates_assert_off (jvm : JVM) (cond : bool) :
  assertionsEnabled jvm = false -> evaluates (assert jvm cond) tt.
Proof. intros E tr. exists tr. unfold assert. rewrite E. reflexivity. Qed.

Lemma throws_assert (jvm : JVM) :
  assertionsEnabled jvm = true -> throws (assert jvm false) AssertionError.
Proof. intros E tr. exists tr. unfold assert. rewrite E. reflexivity. Qed.

(** ** 32-bit arithmetic without overflow *)

Lemma wrap32_small (n : Z) :
  Int32.MIN_VALUE <= n <= Int32.MAX_VALUE -> Int32.wrap32 n = n.
Proof.
  unfold Int32.MIN_VALUE, Int32.MAX_VALUE, Int32.wrap32. intros Hn.
  rewrite Z.mod_small by lia. lia.
Qed.

Lemma add_small (a b : Z) :
  Int32.MIN_VALUE <= a + b <= Int32.MAX_VALUE -> (a + b)%i32 = a + b.
Proof. apply wrap32_small. Qed.

Lemma mul_small (a b : Z) :
  Int32.MIN_VALUE <= a * b <= Int32.MAX_VALUE -> (a * b)%i32 = a * b.
Proof. apply wrap32_small. Qed.

Lemma toShort_small (n : Z) : - 2 ^ 15 <= n < 2 ^ 15 -> Int32.toShort n = n.
Proof. intros Hn. unfold Int32.toShort. rewrite Z.mod_small by lia. lia. Qed.

(** From here on 32-bit arithmetic is only unfolded by evaluation. *)
Opaque Int32.wrap32 Int32.add Int32.sub Int32.mul Int32.shl.

(** ** Arrays and their written prefix *)

Lemma length_filled {E : Type} (zero : E) (cap : nat) (pre : list E) :
  (length pre <= cap)%nat -> length (filled zero cap pre) = cap.
Proof. intros Hle. unfold filled. rewrite length_app, length_replicate. lia. Qed.

Lemma filled_full {E : Type} (zero : E) (pre : list E) :
  filled zero (length pre) pre = pre.
Proof. unfold filled. rewrite Nat.sub_diag. apply app_nil_r. Qed.

Lemma filled_snoc {E : Type} (zero : E) (cap : nat) (pre : list E) (v : E) :
  (length pre < cap)%nat ->
  <[length pre := v]> (filled zero cap pre) = filled zero cap (pre ++ [v]).
Proof.
  intros Hlt. unfold filled.
  replace (cap - length pre)%nat with (S (cap - length (pre ++ [v])))
    by (rewrite length_app; simpl; lia).
  simpl. rewrite insert_app_r_alt by lia. rewrite Nat.sub_diag. simpl.
  rewrite <- app_assoc. reflexivity.
Qed.

Lemma lookup_filled {E : Type} (zero : E) (cap : nat) (pre : list E) (i : nat) (v : E) :
  pre !! i = Some v -> filled zero cap pre !! i = Some v.
Proof. intros Hv. unfold filled. apply lookup_app_l_Some. exact Hv. Qed.

Lemma evaluates_arraySet {E : Type} (zero : E) (cap : nat) (pre : list E) (v : E) :
  (length pre < cap)%nat ->
  evaluates (arraySet (filled zero cap pre) (Z.of_nat (length pre)) v)
            (filled zero cap (pre ++ [v])).
Proof.
  intros Hlt tr. exists tr. unfold arraySet.
  rewrite length_filled by lia.
  destruct (Z.ltb_spec (Z.of_nat (length pre)) 0) as [Hneg|_]; [lia|].
  destruct (Z.leb_spec (Z.of_nat cap) (Z.of_nat (length pre))) as [Hge|_]; [lia|].
  simpl. rewrite Nat2Z.id, filled_snoc by lia. reflexivity.
Qed.

Lemma evaluates_arrayGet {E : Type} (l : list E) (i : Z) (v : E) :
  0 <= i -> l !! Z.to_nat i = Some v -> evaluates (arrayGet l i) v.
Proof.
  intros Hi Hv tr. exists tr. unfold arrayGet.
  pose proof (lookup_lt_Some _ _ _ Hv) as Hlt.
  destruct (Z.ltb_spec i 0) as [Hneg|_]; [lia|].
  destruct (Z.leb_spec (Z.of_nat (length l)) i) as [Hge|_]; [lia|].
  simpl. rewrite Hv. reflexivity.
Qed.

Lemma evaluates_arrayNew {E : Type} (count : Z) (zero : E) :
  0 <= count -> evaluates (arrayNew count zero) (filled zero (Z.to_nat count) []).
Proof.
  intros Hc tr. exists tr. unfold arrayNew.
  destruct (Z.ltb_spec count 0) as [Hneg|_]; [lia|].
  unfold filled. simpl. rewrite Nat.sub_0_r. reflexivity.
Qed.

(** ** Loops that write through a cursor *)

Section CursorLoops.
Context {E St : Type}.
Variable mk : list E -> St.
Variable capE : nat.

(** A loop whose body appends [emit a] appends [flat_map emit l]. *)
Lemma evaluates_foldM_emit {A : Type} (body : St -> A -> M St) (emit : A -> list E)
    (l : list A) :
  (forall pre a, In a l -> (length pre + length (emit a) <= capE)%nat ->
     evaluates (body (mk pre) a) (mk (pre ++ emit a))) ->
  forall pre, (length pre + length (flat_map emit l) <= capE)%nat ->
    evaluates (foldM body (mk pre) l) (mk (pre ++ flat_map emit l)).
Proof.
  induction l as [|a l IH]; intros Hbody pre Hfit; simpl in *.
  - rewrite app_nil_r. apply evaluates_ret.
  - rewrite length_app in Hfit.
    eapply evaluates_bind.
    + apply Hbody; [left; reflexivity | lia].
    + rewrite app_assoc. apply IH.
      * intros pre' a' Hin. apply Hbody. right. exact Hin.
      * rewrite length_app. lia.
Qed.

Variable dataOf : St -> list E.
Variable writeOf : St -> E -> M St.
Variable zero : E.
Hypothesis data_mk : forall pre, dataOf (mk pre) = filled zero capE pre.
Hypothesis write_mk : forall pre v, (length pre < capE)%nat ->
  evaluates (writeOf (mk pre) v) (mk (pre ++ [v])).

(** A loop that reads cells [j .. j+n) of the part [pre0] already written
    and appends their images under [f]. *)
Lemma evaluates_foldM_copy (f : E -> E) (pre0 : list E) :
  forall (n j : nat) (ext : list E),
    (j + n <= length pre0)%nat ->
    (length (pre0 ++ ext) + n <= capE)%nat ->
    evaluates
      (foldM (fun s i => a ← arrayGet (dataOf s) i; writeOf s (f a))
             (mk (pre0 ++ ext)) (seqZ (Z.of_nat j) (Z.of_nat n)))
      (mk (pre0 ++ ext ++ map f (take n (drop j pre0)))).
Proof.
  induction n as [|n IH]; intros j ext Hj Hfit.
  - simpl. rewrite app_nil_r. apply evaluates_ret.
  - rewrite seqZ_cons by lia. simpl foldM.
    destruct (lookup_lt_is_Some_2 pre0 j ltac:(lia)) as [v Hv].
    eapply evaluates_bind.
    { eapply evaluates_bind.
      - rewrite data_mk. apply (evaluates_arrayGet _ _ v); [lia|].
        rewrite Nat2Z.id. apply lookup_filled. apply lookup_app_l_Some. exact Hv.
      - apply write_mk. lia. }
    replace (Z.succ (Z.of_nat j)) with (Z.of_nat (S j)) by lia.
    replace (Z.pred (Z.of_nat (S n))) with (Z.of_nat n) by lia.
    rewrite <- app_assoc.
    replace (take (S n) (drop j pre0)) with (v :: take n (drop (S j) pre0)).
    2:{ rewrite (drop_S _ _ _ Hv). reflexivity. }
    simpl map.
    replace (ext ++ f v :: map f (take n (drop (S j) pre0)))
      with ((ext ++ [f v]) ++ map f (take n (drop (S j) pre0)))
      by (rewrite <- app_assoc; reflexivity).
    apply IH; [lia|].
    rewrite !length_app in *. simpl. lia.
Qed.

End CursorLoops.

Section ArrayCode.
Context {F : Type} `{FloatOps F}.
Variable jvm : JVM.
Variable cap : nat.
Hypothesis cap_int : Z.of_nat cap <= Int32.MAX_VALUE.

Local Abbreviation Float3 := (Float3.t F).

Lemma evaluates_VertexArray_write (pre : list Float3) (v : Float3) :
  (length pre < cap)%nat ->
  evaluates (VertexArray_write (VA cap pre) v) (VA cap (pre ++ [v])).
Proof.
  intros Hlt. unfold VertexArray_write, VA. simpl.
  eapply evaluates_bind; [apply evaluates_arraySet; exact Hlt|].
  rewrite length_app. simpl length.
  rewrite add_small.
  - replace (Z.of_nat (length pre) + 1) with (Z.of_nat (length pre + 1)) by lia.
    apply evaluates_ret.
  - unfold Int32.MIN_VALUE, Int32.MAX_VALUE in *. lia.
Qed.

Lemma evaluates_TriangleArray_write1 (pre : list Z) (a : Z) :
  (length pre < cap)%nat ->
  evaluates (TriangleArray_write1 (TA cap pre) a) (TA cap (pre ++ [a])).
Proof.
  intros Hlt. unfold TriangleArray_write1, TA. simpl.
  eapply evaluates_bind; [apply evaluates_arraySet; exact Hlt|].
  rewrite length_app. simpl length.
  rewrite add_small.
  - replace (Z.of_nat (length pre) + 1) with (Z.of_nat (length pre + 1)) by lia.
    apply evaluates_ret.
  - unfold Int32.MIN_VALUE, Int32.MAX_VALUE in *. lia.
Qed.

Lemma evaluates_TriangleArray_write (pre : list Z) (a b c : Z) :
  (length pre + 3 <= cap)%nat ->
  evaluates (TriangleArray_write (TA cap pre) a b c) (TA cap (pre ++ [a; b; c])).
Proof.
  intros Hfit. unfold TriangleArray_write.
  eapply evaluates_bind; [apply evaluates_TriangleArray_write1; lia|].
  eapply evaluates_bind.
  { apply evaluates_TriangleArray_write1. rewrite length_app. simpl. lia. }
  replace (pre ++ [a; b; c]) with (((pre ++ [a]) ++ [b]) ++ [c])
    by (rewrite <- !app_assoc; reflexivity).
  apply evaluates_TriangleArray_write1. rewrite !length_app. simpl. lia.
Qed.

Lemma evaluates_TriangleArray_write2 (pre : list Z) (a b c d e f : Z) :
  (length pre + 6 <= cap)%nat ->
  evaluates (triangles ← TriangleArray_write (TA cap pre) a b c;
             TriangleArray_write triangles d e f)
            (TA cap (pre ++ [a; b; c; d; e; f])).
Proof.
  intros Hfit.
  eapply evaluates_bind; [apply evaluates_TriangleArray_write; lia|].
  replace (pre ++ [a; b; c; d; e; f]) with ((pre ++ [a; b; c]) ++ [d; e; f])
    by (rewrite <- app_assoc; reflexivity).
  apply evaluates_TriangleArray_write. rewrite length_app. simpl. lia.
Qed.

End ArrayCode.

(** ** The vertex code writes [spherePoints] *)

Lemma flat_map_singleton {A B : Type} (g : A -> B) (l : list A) :
  flat_map (fun a => [g a]) l = map g l.
Proof. induction l as [|a l IH]; simpl; [reflexivity | rewrite IH; reflexivity]. Qed.

Lemma length_flat_map_const {A B : Type} (g : A -> list B) (k : nat) (l : list A) :
  (forall a, In a l -> length (g a) = k) ->
  length (flat_map g l) = (length l * k)%nat.
Proof.
  induction l as [|a l IH]; intros Hk; simpl; [reflexivity|].
  rewrite length_app, IH.
  - rewrite (Hk a) by (left; reflexivity). reflexivity.
  - intros a' Hin. apply Hk. right. exact Hin.
Qed.

Lemma until_seqZ (n : Z) : 0 <= n -> until 0 n = seqZ (Z.of_nat 0) (Z.of_nat (Z.to_nat n)).
Proof. intros Hn. unfold until. rewrite Z2Nat.id by lia. f_equal. lia. Qed.

Lemma until_1_8 : until 1 8 = [1; 2; 3; 4; 5; 6; 7].
Proof. reflexivity. Qed.

Lemma octants_defined {F : Type} `{FloatOps F} :
  Forall (fun o => 0 <= o /\ is_Some (octants (F:=F) !! Z.to_nat o)) (until 1 8).
Proof.
  rewrite until_1_8.
  repeat (apply List.Forall_cons; [split; [lia | eexists; reflexivity]|]).
  apply List.Forall_nil.
Qed.

Lemma levelVerticesPerLine_eq (level : Z) :
  (1 shl level + 1)%i32 = levelVerticesPerLine level.
Proof. reflexivity. Qed.

Lemma levelVerticesPerPatch_eq (level : Z) :
  Int32.wrap32
    (Z.quot (levelVerticesPerLine level * (levelVerticesPerLine level + 1))%i32 2)
  = levelVerticesPerPatch level.
Proof. reflexivity. Qed.

Section VertexCode.
Context {F : Type} `{FloatOps F}.
Variable jvm : JVM.
Variable cap : nat.
Hypothesis cap_int : Z.of_nat cap <= Int32.MAX_VALUE.

Local Abbreviation Float3 := (Float3.t F).

Lemma evaluates_writeGeodesic (pre : list Float3) (pointA pointB : Float3)
    (numSegments : Z) :
  (length pre + length (geodesicPoints pointA pointB numSegments) <= cap)%nat ->
  evaluates (writeGeodesic (VA cap pre) pointA pointB numSegments)
            (VA cap (pre ++ geodesicPoints pointA pointB numSegments)).
Proof.
  unfold writeGeodesic, geodesicPoints. intros Hfit. simpl length in Hfit.
  eapply evaluates_bind; [apply evaluates_VertexArray_write; [exact cap_int | lia]|].
  destruct (numSegments =? 0).
  - apply evaluates_ret.
  - rewrite length_app, length_map in Hfit. simpl in Hfit.
    eapply evaluates_bind; [apply evaluates_fdivInt|].
    eapply evaluates_bind.
    + apply (evaluates_foldM_emit (VA cap) cap _
               (fun i => [quaternionRotateVector
                            (quaternionFromRotation (cross pointA pointB)
                               (fdiv (facos (dot pointA pointB)) (fofZ numSegments)
                                * fofZ i)%f) pointA])).
      * intros pre' i _ Hfit'. simpl in Hfit'.
        apply evaluates_VertexArray_write; [exact cap_int | lia].
      * rewrite flat_map_singleton, length_app, length_map. simpl. lia.
    + rewrite flat_map_singleton.
      replace (pre ++ pointA :: map _ (until 1 numSegments) ++ [pointB])
        with (((pre ++ [pointA]) ++ map
                 (fun i => quaternionRotateVector
                             (quaternionFromRotation (cross pointA pointB)
                                (fdiv (facos (dot pointA pointB)) (fofZ numSegments)
                                 * fofZ i)%f) pointA)
                 (until 1 numSegments)) ++ [pointB]).
      * apply evaluates_VertexArray_write; [exact cap_int|].
        rewrite !length_app, length_map. simpl. lia.
      * rewrite <- !app_assoc. reflexivity.
Qed.

Lemma evaluates_patch (verticesPerLine : Z) (pre : list Float3) :
  (length pre + length (patchPoints verticesPerLine) <= cap)%nat ->
  evaluates
    (foldM (fun positions i =>
        theta ← fdivInt (FPI * fhalf * fofZ i)%f (verticesPerLine - 1)%i32;
        let pointA := Float3.make (fofZ 0) (fsin theta) (fcos theta) in
        let pointB := Float3.make (fcos theta) (fsin theta) (fofZ 0) in
        let numSegments := (verticesPerLine - 1 - i)%i32 in
        writeGeodesic positions pointA pointB numSegments)
      (VA cap pre) (until 0 verticesPerLine))
    (VA cap (pre ++ patchPoints verticesPerLine)).
Proof.
  intros Hfit. unfold patchPoints.
  apply (evaluates_foldM_emit (VA cap) cap _ (linePoints verticesPerLine)).
  - intros pre' i _ Hfit'.
    eapply evaluates_bind; [apply evaluates_fdivInt|].
    apply evaluates_writeGeodesic. exact Hfit'.
  - exact Hfit.
Qed.

(** One rotated copy of the first [k] points of [patch]. *)
Lemma evaluates_rotatedCopy (quat : Float4.t F) (patch ext : list Float3) (k : nat) :
  (k <= length patch)%nat ->
  (length (patch ++ ext) + k <= cap)%nat ->
  evaluates
    (foldM (fun positions i =>
              src ← arrayGet (VertexArray.data positions) i;
              let vert := quaternionRotateVector quat src in
              VertexArray_write positions vert)
           (VA cap (patch ++ ext)) (until 0 (Z.of_nat k)))
    (VA cap (patch ++ ext ++ map (quaternionRotateVector quat) (take k patch))).
Proof.
  intros Hk Hfit.
  rewrite until_seqZ, Nat2Z.id by lia.
  pose proof (evaluates_foldM_copy (VA cap) cap VertexArray.data VertexArray_write zero3
                (fun pre => eq_refl)
                (fun pre v => evaluates_VertexArray_write cap cap_int pre v)
                (quaternionRotateVector quat) patch k 0%nat ext) as Hcopy.
  rewrite drop_0 in Hcopy. apply Hcopy; [lia | exact Hfit].
Qed.

Lemma evaluates_rotatedCopies (patch : list Float3) (k : nat) :
  (k <= length patch)%nat ->
  forall (os : list Z) (ext : list Float3),
    Forall (fun o => 0 <= o /\ is_Some (octants (F:=F) !! Z.to_nat o)) os ->
    (length (patch ++ ext) + length os * k <= cap)%nat ->
    evaluates
      (foldM (fun positions octant =>
          o ← arrayGet octants octant;
          let eulerAngles := scale3 (scale3 o fhalf) FPI in
          let quat := quaternionFromEulers eulerAngles in
          foldM (fun positions i =>
                   src ← arrayGet (VertexArray.data positions) i;
                   let vert := quaternionRotateVector quat src in
                   VertexArray_write positions vert)
                positions (until 0 (Z.of_nat k)))
        (VA cap (patch ++ ext)) os)
      (VA cap (patch ++ ext ++
               flat_map (fun octant =>
                           map (quaternionRotateVector (octantQuaternion octant))
                               (take k patch)) os)).
Proof.
  intros Hk. induction os as [|o os IH]; intros ext Hos Hfit.
  - simpl. rewrite app_nil_r. apply evaluates_ret.
  - inversion Hos as [|? ? [Ho [v Hv]] Hos']; subst. simpl length in Hfit.
    simpl foldM. eapply evaluates_bind.
    + eapply evaluates_bind; [apply (evaluates_arrayGet _ _ v Ho Hv)|].
      apply evaluates_rotatedCopy; [exact Hk | lia].
    + simpl flat_map. unfold octantQuaternion at 1. rewrite Hv. simpl default.
      set (copy := map _ (take k patch)).
      assert (Hlen : length copy = k).
      { unfold copy. rewrite length_map, length_take. lia. }
      rewrite (app_assoc ext copy).
      apply IH; [exact Hos'|].
      rewrite !length_app in *. lia.
Qed.

Lemma evaluates_generateUnitSphere (level : Z) :
  clamp level 0 kOctasphereMaxSubdivisions = level ->
  0 <= levelVerticesPerPatch level ->
  length (patchPoints (F:=F) (levelVerticesPerLine level))
    = Z.to_nat (levelVerticesPerPatch level) ->
  (8 * Z.to_nat (levelVerticesPerPatch level))%nat = cap ->
  evaluates (generateUnitSphere jvm (VA cap []) level) (VA cap (spherePoints level)).
Proof.
  intros Hclamp Hpos Hpatch Hcap.
  unfold generateUnitSphere. rewrite Hclamp.
  rewrite levelVerticesPerLine_eq.
  eapply evaluates_bind; [apply evaluates_idiv; discriminate|].
  rewrite levelVerticesPerPatch_eq.
  unfold spherePoints.
  generalize dependent (levelVerticesPerPatch level). intros vpp Hpos.
  generalize (levelVerticesPerLine level). intros vpl Hpatch Hcap.
  rewrite <- (Z2Nat.id vpp Hpos).
  generalize dependent (Z.to_nat vpp). clear vpp Hpos. intros k Hpatch Hcap.
  rewrite Nat2Z.id. cbv zeta.
  eapply evaluates_bind.
  { apply (evaluates_patch vpl []). simpl. lia. }
  rewrite app_nil_l.
  eapply evaluates_bind.
  { rewrite <- (app_nil_r (patchPoints vpl)).
    apply (evaluates_rotatedCopies (patchPoints vpl) k).
    - lia.
    - apply octants_defined.
    - rewrite app_nil_r, Hpatch, until_1_8. simpl. lia. }
  rewrite app_nil_l.
  eapply evaluates_bind; [|apply evaluates_ret].
  unfold VA. cbn [VertexArray.index VertexArray.data].
  rewrite length_filled.
  - rewrite length_app, Hpatch, (length_flat_map_const _ k).
    + rewrite until_1_8. simpl length.
      replace (Z.of_nat (k + 7 * k)) with (Z.of_nat cap) by lia.
      rewrite Z.eqb_refl. apply evaluates_assert_true.
    + intros o _. rewrite length_map, length_take. lia.
  - rewrite length_app, Hpatch, (length_flat_map_const _ k).
    + rewrite until_1_8. simpl length. lia.
    + intros o _. rewrite length_map, length_take. lia.
Qed.

End VertexCode.

(** ** The index code writes [sphereIndices] *)

Lemma levelTrianglesPerPatch_eq (level : Z) :
  ((levelVerticesPerLine level - 2) * (levelVerticesPerLine level - 1)
   + levelVerticesPerLine level - 1)%i32 = levelTrianglesPerPatch level.
Proof. reflexivity. Qed.

(** Either judgement passes through a step that returns. *)
Ltac step :=
  first [ eapply evaluates_bind | eapply throws_bind_r ].

Lemma length_sphereIndices (level : Z) :
  length (patchIndices (levelVerticesPerLine level))
    = Z.to_nat (levelIndicesPerPatch level) ->
  length (sphereIndices level) = (8 * Z.to_nat (levelIndicesPerPatch level))%nat.
Proof.
  intros Hpatch. unfold sphereIndices. cbv zeta.
  rewrite length_app, Hpatch.
  rewrite (length_flat_map_const _ (Z.to_nat (levelIndicesPerPatch level))).
  - rewrite until_1_8. simpl length. lia.
  - intros o _. rewrite length_map, length_take. lia.
Qed.

Section IndexCode.
Variable jvm : JVM.
Variable cap : nat.
Hypothesis cap_int : Z.of_nat cap <= Int32.MAX_VALUE.

Lemma evaluates_columns (verticesPerLine : Z) :
  forall (cols : list Z) (pre : list Z) (j0 : Z),
    (length pre + length (columnsIndices verticesPerLine j0 cols) <= cap)%nat ->
    evaluates
      (foldM (fun '(triangles, j0) colIndex =>
          let colHeight := (verticesPerLine - 1 - colIndex)%i32 in
          let j1 := (j0 + 1)%i32 in
          let j2 := (j0 + colHeight + 1)%i32 in
          let j3 := (j0 + colHeight + 2)%i32 in
          triangles ← foldM (fun triangles row =>
              triangles ← TriangleArray_write triangles
                            (j0 + row)%i32 (j1 + row)%i32 (j2 + row)%i32;
              TriangleArray_write triangles
                (j2 + row)%i32 (j1 + row)%i32 (j3 + row)%i32)
            triangles (until 0 (colHeight - 1)%i32);
          let row := (colHeight - 1)%i32 in
          triangles ← TriangleArray_write triangles
                        (j0 + row)%i32 (j1 + row)%i32 (j2 + row)%i32;
          mret (triangles, j2))
        (TA cap pre, j0) cols)
      (TA cap (pre ++ columnsIndices verticesPerLine j0 cols),
       fold_left (nextColumn verticesPerLine) cols j0).
Proof.
  induction cols as [|c cols IH]; intros pre j0 Hfit.
  - simpl. rewrite app_nil_r. apply evaluates_ret.
  - simpl columnsIndices in *. rewrite length_app in Hfit.
    simpl foldM. eapply evaluates_bind.
    + cbv zeta. eapply evaluates_bind.
      { apply (evaluates_foldM_emit (TA cap) cap _
                 (fun row =>
                    [ (j0 + row)%i32; (j0 + 1 + row)%i32;
                      (j0 + (verticesPerLine - 1 - c) + 1 + row)%i32;
                      (j0 + (verticesPerLine - 1 - c) + 1 + row)%i32;
                      (j0 + 1 + row)%i32;
                      (j0 + (verticesPerLine - 1 - c) + 2 + row)%i32 ])).
        - intros pre' row _ Hfit'. simpl in Hfit'.
          apply evaluates_TriangleArray_write2; [exact cap_int | lia].
        - unfold columnIndices in Hfit. cbv zeta in Hfit.
          rewrite length_app in Hfit. lia. }
      eapply evaluates_bind.
      { apply evaluates_TriangleArray_write; [exact cap_int|].
        unfold columnIndices in Hfit. cbv zeta in Hfit.
        rewrite !length_app in *. simpl in Hfit. lia. }
      apply evaluates_ret.
    + simpl fold_left.
      match goal with
      | |- evaluates (foldM _ (TA cap ?l, ?j) _) _ =>
          replace l with (pre ++ columnIndices verticesPerLine j0 c)
            by (unfold columnIndices; cbv zeta; rewrite app_assoc; reflexivity);
          change j with (nextColumn verticesPerLine j0 c)
      end.
      rewrite app_assoc. apply IH. rewrite length_app. lia.
Qed.

Lemma evaluates_firstPatch (verticesPerLine : Z) :
  (length (patchIndices verticesPerLine) <= cap)%nat ->
  evaluates (firstPatch (TA cap []) verticesPerLine)
            (TA cap (patchIndices verticesPerLine)).
Proof.
  intros Hfit. unfold firstPatch.
  eapply evaluates_bind.
  - apply (evaluates_columns verticesPerLine _ [] 0). exact Hfit.
  - apply evaluates_ret.
Qed.

Lemma evaluates_shiftedCopy (offset : Z) (patch ext : list Z) (k : nat) :
  (k <= length patch)%nat ->
  (length (patch ++ ext) + k <= cap)%nat ->
  evaluates
    (foldM (fun triangles i =>
              a ← arrayGet (TriangleArray.data triangles) i;
              TriangleArray_write1 triangles (a + offset)%i32)
           (TA cap (patch ++ ext)) (until 0 (Z.of_nat k)))
    (TA cap (patch ++ ext ++ map (fun a => (a + offset)%i32) (take k patch))).
Proof.
  intros Hk Hfit.
  rewrite until_seqZ, Nat2Z.id by lia.
  pose proof (evaluates_foldM_copy (TA cap) cap TriangleArray.data TriangleArray_write1 0
                (fun pre => eq_refl)
                (fun pre v => evaluates_TriangleArray_write1 cap cap_int pre v)
                (fun a => (a + offset)%i32) patch k 0%nat ext) as Hcopy.
  rewrite drop_0 in Hcopy. apply Hcopy; [lia | exact Hfit].
Qed.

Lemma evaluates_shiftedCopies (verticesPerPatch : Z) (patch : list Z) (k : nat) :
  (k <= length patch)%nat ->
  forall (os : list Z) (ext : list Z),
    (length (patch ++ ext) + length os * k <= cap)%nat ->
    evaluates
      (foldM (fun triangles octant =>
          let offset := (verticesPerPatch * octant)%i32 in
          foldM (fun triangles i =>
                   a ← arrayGet (TriangleArray.data triangles) i;
                   TriangleArray_write1 triangles (a + offset)%i32)
                triangles (until 0 (Z.of_nat k)))
        (TA cap (patch ++ ext)) os)
      (TA cap (patch ++ ext ++
               flat_map (fun octant =>
                           map (fun a => (a + verticesPerPatch * octant)%i32)
                               (take k patch)) os)).
Proof.
  intros Hk. induction os as [|o os IH]; intros ext Hfit.
  - simpl. rewrite app_nil_r. apply evaluates_ret.
  - simpl length in Hfit. simpl foldM. eapply evaluates_bind.
    + cbv zeta. apply evaluates_shiftedCopy; [exact Hk | lia].
    + simpl flat_map.
      set (copy := map _ (take k patch)).
      assert (Hlen : length copy = k).
      { unfold copy. rewrite length_map, length_take. lia. }
      rewrite (app_assoc ext copy).
      apply IH. rewrite !length_app in *. lia.
Qed.

(** [generateIndices] up to its final assertion, which holds only when the
    written indices fill the array. *)
Lemma generateIndices_spec (level : Z) :
  0 <= levelIndicesPerPatch level ->
  length (patchIndices (levelVerticesPerLine level))
    = Z.to_nat (levelIndicesPerPatch level) ->
  (length (sphereIndices level) <= cap)%nat ->
  if assertionsEnabled jvm && negb (length (sphereIndices level) =? cap)%nat
  then throws (generateIndices jvm (TA cap []) level) AssertionError
  else evaluates (generateIndices jvm (TA cap []) level)
                 (TA cap (sphereIndices level)).
Proof.
  intros Hpos Hpatch Hfit.
  pose proof (length_sphereIndices level Hpatch) as Hlen.
  assert (Hassert :
    if assertionsEnabled jvm && negb (length (sphereIndices level) =? cap)%nat
    then throws (assert jvm (Z.of_nat (length (sphereIndices level)) =? Z.of_nat cap))
                AssertionError
    else evaluates (assert jvm (Z.of_nat (length (sphereIndices level)) =? Z.of_nat cap))
                   tt).
  { destruct (assertionsEnabled jvm) eqn:Hea; simpl.
    - destruct (Nat.eqb_spec (length (sphereIndices level)) cap) as [Heq|Hne]; simpl.
      + rewrite Heq, Z.eqb_refl. apply evaluates_assert_true.
      + destruct (Z.eqb_spec (Z.of_nat (length (sphereIndices level))) (Z.of_nat cap));
          [lia|]. apply throws_assert. exact Hea.
    - apply evaluates_assert_off. exact Hea. }
  rewrite Hlen in Hfit.
  assert (Hshift : evaluates
            (shiftedPatches (TA cap (patchIndices (levelVerticesPerLine level)))
               (levelVerticesPerPatch level) (levelIndicesPerPatch level))
            (TA cap (sphereIndices level))).
  { unfold shiftedPatches, sphereIndices. cbv zeta.
    replace (until 0 (levelIndicesPerPatch level))
      with (until 0 (Z.of_nat (Z.to_nat (levelIndicesPerPatch level))))
      by (rewrite Z2Nat.id by exact Hpos; reflexivity).
    pose proof (evaluates_shiftedCopies (levelVerticesPerPatch level)
                  (patchIndices (levelVerticesPerLine level))
                  (Z.to_nat (levelIndicesPerPatch level)) ltac:(lia) (until 1 8) [])
      as Hcopies.
    rewrite app_nil_l, app_nil_r in Hcopies. apply Hcopies.
    rewrite Hpatch, until_1_8. simpl length. lia. }
  assert (Hindex :
    (TriangleArray.index (TA cap (sphereIndices level)) =?
     Z.of_nat (length (TriangleArray.data (TA cap (sphereIndices level)))))
    = (Z.of_nat (length (sphereIndices level)) =? Z.of_nat cap)).
  { unfold TA. cbn [TriangleArray.index TriangleArray.data].
    rewrite length_filled by lia. reflexivity. }
  unfold generateIndices.
  rewrite levelVerticesPerLine_eq. cbv zeta.
  rewrite levelTrianglesPerPatch_eq.
  change (levelTrianglesPerPatch level * 3)%i32 with (levelIndicesPerPatch level).
  destruct (assertionsEnabled jvm && _);
    (step; [apply evaluates_idiv; discriminate|]);
    rewrite levelVerticesPerPatch_eq;
    (step; [apply evaluates_firstPatch; lia|]);
    (step; [exact Hshift|]);
    rewrite Hindex.
  - apply throws_bind_l. exact Hassert.
  - eapply evaluates_bind; [exact Hassert | apply evaluates_ret].
Qed.

End IndexCode.

(** ** Buffers *)

Section BufferCode.
Context {F : Type} `{FloatOps F}.
Variable jvm : JVM.

Lemma store_filled (cap : nat) (cs pre : list (Cell F)) :
  (length pre + length cs <= cap)%nat ->
  ByteBuffer.store cs (length pre) (filled (Raw 0) cap pre)
  = filled (Raw 0) cap (pre ++ cs).
Proof.
  revert pre. induction cs as [|c cs IH]; intros pre Hfit; simpl in *.
  - rewrite app_nil_r. reflexivity.
  - rewrite filled_snoc by lia.
    replace (S (length pre)) with (length (pre ++ [c]))
      by (rewrite length_app; simpl; lia).
    rewrite IH by (rewrite length_app; simpl; lia).
    rewrite <- app_assoc. reflexivity.
Qed.

Lemma evaluates_put (cap : nat) (bo : ByteOrder) (cs pre : list (Cell F)) :
  (length pre + length cs <= cap)%nat ->
  evaluates (ByteBuffer.put cs (BB cap bo pre)) (BB cap bo (pre ++ cs)).
Proof.
  intros Hfit tr. exists tr. unfold ByteBuffer.put, ByteBuffer.capacity, BB.
  cbn [ByteBuffer.bytes ByteBuffer.position ByteBuffer.order].
  rewrite length_filled by lia.
  destruct (Z.ltb_spec (Z.of_nat cap - Z.of_nat (length pre)) (Z.of_nat (length cs)));
    [lia|].
  rewrite Nat2Z.id, store_filled by lia.
  rewrite length_app, Nat2Z.inj_add. reflexivity.
Qed.

Lemma evaluates_allocate (n : Z) :
  0 <= n ->
  evaluates (ByteBuffer.allocate n) (BB (F:=F) (Z.to_nat n) BIG_ENDIAN []).
Proof.
  intros Hn tr. exists tr. unfold ByteBuffer.allocate.
  destruct (Z.ltb_spec n 0); [lia|].
  unfold BB, filled. simpl. rewrite Nat.sub_0_r. reflexivity.
Qed.

Lemma length_floatCells (bo : ByteOrder) (v : F) :
  length (ByteBuffer.floatCells bo v) = 4%nat.
Proof. destruct bo; reflexivity. Qed.

Lemma length_shortCells (bo : ByteOrder) (s : Z) :
  length (ByteBuffer.shortCells (F:=F) bo s) = 2%nat.
Proof. destruct bo; reflexivity. Qed.

Lemma length_encodePositions (bo : ByteOrder) (l : list (Float3.t F)) :
  length (encodePositions bo l) = (length l * 12)%nat.
Proof.
  unfold encodePositions. apply length_flat_map_const.
  intros v _. rewrite !length_app, !length_floatCells. reflexivity.
Qed.

Lemma length_encodeIndices (bo : ByteOrder) (l : list Z) :
  length (encodeIndices (F:=F) bo l) = (length l * 2)%nat.
Proof.
  unfold encodeIndices. apply length_flat_map_const.
  intros i _. apply length_shortCells.
Qed.

Lemma fullBuffer_BB (bo : ByteOrder) (cells : list (Cell F)) :
  BB (length cells) bo cells = fullBuffer bo cells.
Proof. unfold BB, fullBuffer. rewrite filled_full. reflexivity. Qed.

Lemma kOctaspherePositionSize_eq : kOctaspherePositionSize = 12.
Proof. reflexivity. Qed.

Lemma kOctasphereTangentSize_eq : kOctasphereTangentSize = 16.
Proof. reflexivity. Qed.

(** [VertexArray.toBuffer] packs the whole array, three floats a vertex. *)
Lemma evaluates_VertexArray_toBuffer (this : VertexArray.t F) :
  Z.of_nat (length (VertexArray.data this)) * 12 <= Int32.MAX_VALUE ->
  evaluates (VertexArray_toBuffer jvm this)
            (fullBuffer (nativeOrder jvm)
               (encodePositions (nativeOrder jvm) (VertexArray.data this))).
Proof.
  intros Hsize. unfold VertexArray_toBuffer.
  rewrite kOctaspherePositionSize_eq, mul_small
    by (unfold Int32.MIN_VALUE, Int32.MAX_VALUE in *; lia).
  eapply evaluates_bind; [apply evaluates_allocate; lia|].
  change (ByteBuffer.withOrder (nativeOrder jvm) (BB ?cap BIG_ENDIAN []))
    with (BB (F:=F) cap (nativeOrder jvm) []).
  set (cap := Z.to_nat (Z.of_nat (length (VertexArray.data this)) * 12)).
  assert (Hcap : cap = length (encodePositions (nativeOrder jvm) (VertexArray.data this))).
  { rewrite length_encodePositions. unfold cap. lia. }
  rewrite <- fullBuffer_BB, <- Hcap.
  match goal with |- evaluates _ (BB _ _ ?x) => change x with ([] ++ x) end.
  unfold encodePositions.
  apply (evaluates_foldM_emit (BB cap (nativeOrder jvm)) cap _
           (fun v => ByteBuffer.floatCells (nativeOrder jvm) (Float3.x v) ++
                     ByteBuffer.floatCells (nativeOrder jvm) (Float3.y v) ++
                     ByteBuffer.floatCells (nativeOrder jvm) (Float3.z v))).
  - intros pre v _ Hfit. rewrite !length_app, !length_floatCells in Hfit.
    unfold ByteBuffer.putFloat.
    eapply evaluates_bind.
    { apply evaluates_put. rewrite length_floatCells. lia. }
    eapply evaluates_bind.
    { apply evaluates_put. rewrite length_app, !length_floatCells. lia. }
    rewrite (app_assoc pre), (app_assoc (pre ++ _)).
    apply evaluates_put. rewrite !length_app, !length_floatCells. lia.
  - simpl. fold (encodePositions (nativeOrder jvm) (VertexArray.data this)). lia.
Qed.

(** [TriangleArray.toBuffer] packs the whole array when every index passes
    the range assertion, or when assertions are not checked. *)
Lemma evaluates_TriangleArray_toBuffer (this : TriangleArray.t) :
  Z.of_nat (length (TriangleArray.data this)) * 2 <= Int32.MAX_VALUE ->
  (assertionsEnabled jvm = true ->
   Forall (fun i => i <= Short_MAX_VALUE) (TriangleArray.data this)) ->
  evaluates (TriangleArray_toBuffer (F:=F) jvm this)
            (fullBuffer (nativeOrder jvm)
               (encodeIndices (nativeOrder jvm) (TriangleArray.data this))).
Proof.
  intros Hsize Hrange. unfold TriangleArray_toBuffer.
  unfold kOctasphereIndexSize.
  rewrite mul_small by (unfold Int32.MIN_VALUE, Int32.MAX_VALUE in *; lia).
  eapply evaluates_bind; [apply evaluates_allocate; lia|].
  change (ByteBuffer.withOrder (nativeOrder jvm) (BB ?cap BIG_ENDIAN []))
    with (BB (F:=F) cap (nativeOrder jvm) []).
  set (cap := Z.to_nat (Z.of_nat (length (TriangleArray.data this)) * 2)).
  assert (Hcap : cap = length (encodeIndices (F:=F) (nativeOrder jvm)
                                 (TriangleArray.data this))).
  { rewrite length_encodeIndices. unfold cap. lia. }
  rewrite <- fullBuffer_BB, <- Hcap.
  match goal with |- evaluates _ (BB _ _ ?x) => change x with ([] ++ x) end.
  unfold encodeIndices.
  apply (evaluates_foldM_emit (BB cap (nativeOrder jvm)) cap _
           (fun i => ByteBuffer.shortCells (nativeOrder jvm) (Int32.toShort i))).
  - intros pre i Hin Hfit.
    eapply evaluates_bind.
    + destruct (assertionsEnabled jvm) eqn:Hea.
      * rewrite Forall_forall in Hrange. specialize (Hrange eq_refl i).
        rewrite list_elem_of_In in Hrange. specialize (Hrange Hin).
        destruct (Z.leb_spec i Short_MAX_VALUE); [|lia].
        apply evaluates_assert_true.
      * apply evaluates_assert_off. exact Hea.
    + apply evaluates_put. exact Hfit.
  - simpl. fold (encodeIndices (F:=F) (nativeOrder jvm) (TriangleArray.data this)). lia.
Qed.

(** When assertions are checked, [TriangleArray.toBuffer] only returns if
    every index passed the range assertion. *)
Lemma toBuffer_loop_checked (l : list Z) :
  assertionsEnabled jvm = true ->
  forall (buf r : ByteBuffer.t F) (tr tr' : Trace),
    foldM (fun buf i =>
             assert jvm (i <=? Short_MAX_VALUE) ;;
             ByteBuffer.putShort (Int32.toShort i) buf) buf l tr = (inr r, tr') ->
    Forall (fun i => i <= Short_MAX_VALUE) l.
Proof.
  intros Hea. induction l as [|i l IH]; intros buf r tr tr' Hrun.
  - apply Forall_nil. exact I.
  - simpl in Hrun. unfold mbind, M_bind in Hrun.
    unfold assert in Hrun at 1. rewrite Hea in Hrun.
    destruct (Z.leb_spec i Short_MAX_VALUE) as [Hle|Hgt]; simpl in Hrun.
    + destruct (ByteBuffer.putShort (Int32.toShort i) buf tr) as [[e|buf'] tr1] eqn:Hput;
        [discriminate|].
      apply Forall_cons. split; [exact Hle|]. exact (IH _ _ _ _ Hrun).
    + discriminate.
Qed.

Lemma TriangleArray_toBuffer_checked (this : TriangleArray.t) (buf : ByteBuffer.t F) :
  assertionsEnabled jvm = true ->
  outcome (TriangleArray_toBuffer jvm this) = inr buf ->
  Forall (fun i => i <= Short_MAX_VALUE) (TriangleArray.data this).
Proof.
  intros Hea. unfold outcome, run, TriangleArray_toBuffer, mbind, M_bind.
  destruct (ByteBuffer.allocate _ []) as [[e|buf0] tr0]; [discriminate|].
  destruct (foldM _ _ _ tr0) as [[e|r] tr1] eqn:Hloop; [discriminate|].
  intros _. exact (toBuffer_loop_checked _ Hea _ _ _ _ Hloop).
Qed.

End BufferCode.

(** ** The six levels *)

Lemma clamp_range (v : Z) :
  0 <= clamp v 0 kOctasphereMaxSubdivisions <= kOctasphereMaxSubdivisions.
Proof.
  unfold clamp, kOctasphereMaxSubdivisions.
  destruct (Z.ltb_spec v 0); [lia|]. destruct (Z.ltb_spec 5 v); lia.
Qed.

Lemma clamp_id (v lo hi : Z) : lo <= v <= hi -> clamp v lo hi = v.
Proof.
  intros Hv. unfold clamp.
  destruct (Z.ltb_spec v lo); [lia|]. destruct (Z.ltb_spec hi v); lia.
Qed.

Lemma level_cases (level : Z) :
  0 <= level <= kOctasphereMaxSubdivisions ->
  level = 0 \/ level = 1 \/ level = 2 \/ level = 3 \/ level = 4 \/ level = 5.
Proof. unfold kOctasphereMaxSubdivisions. lia. Qed.

(** Every case of a statement about a level in [0, 5]. *)
Ltac each_level H :=
  destruct (level_cases _ H) as [->|[->|[->|[->|[->| ->]]]]].

Lemma level_counts (level : Z) :
  0 <= level <= kOctasphereMaxSubdivisions ->
  levelVerticesPerLine level = 2 ^ level + 1 /\
  levelVerticesPerPatch level
    = levelVerticesPerLine level * (levelVerticesPerLine level + 1) / 2 /\
  levelTrianglesPerPatch level
    = (levelVerticesPerLine level - 2) * (levelVerticesPerLine level - 1)
      + levelVerticesPerLine level - 1 /\
  levelIndicesPerPatch level = levelTrianglesPerPatch level * 3 /\
  levelTotalVertices level = levelVerticesPerPatch level * 8 /\
  levelConnectionQuads level = 12 * (levelVerticesPerLine level - 1) + 6 /\
  levelTotalIndices level
    = (levelTrianglesPerPatch level * 8 + levelConnectionQuads level * 2) * 3 /\
  Int32.wrap32 (Z.quot (levelTotalIndices level) 3) * 3 = levelTotalIndices level /\
  (Int32.wrap32 (Z.quot (levelTotalIndices level) 3) * 3)%i32 = levelTotalIndices level /\
  (levelTotalVertices level * kOctasphereTangentSize)%i32 = levelTotalVertices level * 16 /\
  3 <= levelVerticesPerPatch level <= 561 /\
  1 <= levelTrianglesPerPatch level <= 1024.
Proof.
  intros Hlevel. each_level Hlevel; vm_compute; repeat split; congruence.
Qed.

Lemma level_bounds (level : Z) :
  0 <= level <= kOctasphereMaxSubdivisions ->
  2 <= levelVerticesPerLine level <= 33.
Proof.
  intros Hlevel. each_level Hlevel; vm_compute; repeat split; congruence.
Qed.

Section Levels.
Context {F : Type} `{FloatOps F}.

Lemma length_patchPoints (level : Z) :
  0 <= level <= kOctasphereMaxSubdivisions ->
  Z.of_nat (length (patchPoints (F:=F) (levelVerticesPerLine level)))
  = levelVerticesPerPatch level.
Proof. intros Hlevel. each_level Hlevel; vm_compute; reflexivity. Qed.

End Levels.

Lemma length_patchIndices (level : Z) :
  0 <= level <= kOctasphereMaxSubdivisions ->
  Z.of_nat (length (patchIndices (levelVerticesPerLine level)))
  = levelIndicesPerPatch level.
Proof. intros Hlevel. each_level Hlevel; vm_compute; reflexivity. Qed.

(** Every written index is a vertex of the mesh and fits a [Short]. *)
Lemma sphereIndices_range (level : Z) :
  0 <= level <= kOctasphereMaxSubdivisions ->
  forallb (validIndex (levelTotalVertices level)) (sphereIndices level) = true.
Proof. intros Hlevel. each_level Hlevel; vm_compute; reflexivity. Qed.

(** ** The generator returns [octasphereMesh] *)

Lemma levelTotalVertices_eq (level : Z) :
  (levelVerticesPerPatch level * 8)%i32 = levelTotalVertices level.
Proof. reflexivity. Qed.

Lemma levelTotalIndices_eq (level : Z) :
  ((levelTrianglesPerPatch level * 8 +
    ((4 + 4 + 4) * (levelVerticesPerLine level - 1) + 6) * 2) * 3)%i32
  = levelTotalIndices level.
Proof. reflexivity. Qed.

Section Generator.
Context {F : Type} `{FloatOps F}.
Variable jvm : JVM.

Lemma evaluates_VertexArray_new (count : Z) :
  0 <= count -> evaluates (VertexArray_new (F:=F) count) (VA (Z.to_nat count) []).
Proof.
  intros Hc. unfold VertexArray_new.
  eapply evaluates_bind; [apply evaluates_arrayNew; exact Hc|]. apply evaluates_ret.
Qed.

Lemma evaluates_TriangleArray_new (count : Z) :
  0 <= (count * 3)%i32 ->
  evaluates (TriangleArray_new count) (TA (Z.to_nat (count * 3)%i32) []).
Proof.
  intros Hc. unfold TriangleArray_new.
  eapply evaluates_bind; [apply evaluates_arrayNew; exact Hc|]. apply evaluates_ret.
Qed.

Lemma data_VA_full (pts : list (Float3.t F)) :
  VertexArray.data (VA (length pts) pts) = pts.
Proof. unfold VA. simpl. apply filled_full. Qed.

Lemma applyScale_VA_full (pts : list (Float3.t F)) (scale : F) :
  applyScale (VA (length pts) pts) scale
  = VA (length (map (scalePoint scale) pts)) (map (scalePoint scale) pts).
Proof.
  unfold applyScale, VA. cbn [VertexArray.data VertexArray.index].
  rewrite !filled_full, length_map. reflexivity.
Qed.

Lemma evaluates_cornerOffsets (dimensions : Float3.t F) (radius : F) :
  evaluates (cornerOffsets dimensions radius)
    (fdiv (fmax (Float3.x dimensions) (radius * fofZ 2) - radius * fofZ 2)%f (fofZ 2),
     fdiv (fmax (Float3.y dimensions) (radius * fofZ 2) - radius * fofZ 2)%f (fofZ 2),
     fdiv (fmax (Float3.z dimensions) (radius * fofZ 2) - radius * fofZ 2)%f (fofZ 2)).
Proof.
  unfold cornerOffsets. cbv zeta.
  do 3 (eapply evaluates_bind; [apply evaluates_fdivInt|]).
  apply evaluates_ret.
Qed.

(** The vertices come back from [translateCorners] as they went in. *)
Lemma evaluates_translateCorners (positions : VertexArray.t F) (dimensions : Float3.t F)
    (radius : F) (subdivisions : Z) :
  evaluates (translateCorners positions dimensions radius subdivisions) positions.
Proof.
  unfold translateCorners.
  eapply evaluates_bind; [apply evaluates_cornerOffsets|].
  apply evaluates_ret.
Qed.

Lemma length_spherePoints (level : Z) :
  0 <= level <= kOctasphereMaxSubdivisions ->
  length (spherePoints (F:=F) level) = Z.to_nat (levelTotalVertices level).
Proof.
  intros Hlevel.
  pose proof (length_patchPoints (F:=F) level Hlevel) as Hpatch.
  destruct (level_counts level Hlevel) as (_ & _ & _ & _ & Htv & _ & _ & _ & _ & _ & Hvpp & _).
  unfold spherePoints. cbv zeta.
  rewrite length_app, (length_flat_map_const _ (Z.to_nat (levelVerticesPerPatch level))).
  - rewrite until_1_8. simpl length. lia.
  - intros o _. rewrite length_map, length_take. lia.
Qed.

Lemma length_sphereIndices_level (level : Z) :
  0 <= level <= kOctasphereMaxSubdivisions ->
  Z.of_nat (length (sphereIndices level)) = levelTrianglesPerPatch level * 8 * 3.
Proof.
  intros Hlevel.
  pose proof (length_patchIndices level Hlevel) as Hpatch.
  destruct (level_counts level Hlevel) as (_ & _ & _ & Hipp & _ & _ & _ & _ & _ & _ & _ & Htpp).
  rewrite length_sphereIndices by lia. lia.
Qed.

(** The refinement: with assertions checked the call dies in
    [generateIndices]; without, it returns the described mesh. *)
Lemma generateOctasphere_spec (dimensions : Float3.t F) (radius : F) (subdivisions : Z) :
  if assertionsEnabled jvm
  then throws (generateOctasphere jvm dimensions radius subdivisions) AssertionError
  else evaluates (generateOctasphere jvm dimensions radius subdivisions)
         (octasphereMesh (nativeOrder jvm) radius
            (clamp subdivisions 0 kOctasphereMaxSubdivisions)).
Proof.
  pose proof (clamp_range subdivisions) as Hlevel.
  unfold generateOctasphere. cbv zeta.
  generalize dependent (clamp subdivisions 0 kOctasphereMaxSubdivisions).
  intros level Hlevel.
  destruct (level_counts level Hlevel)
    as (Hvpl & Hvpp & Htpp & Hipp & Htv & Hcq & Hti & Hcount & Hcount32 & Htan & Hvppr & Htppr).
  pose proof (level_bounds level Hlevel) as Hvplr.
  pose proof (length_patchPoints (F:=F) level Hlevel) as Hpatch.
  pose proof (length_spherePoints level Hlevel) as Hsphere.
  pose proof (length_patchIndices level Hlevel) as Hpatchi.
  pose proof (length_sphereIndices_level level Hlevel) as Hspherei.
  assert (Hgen : evaluates
            (generateUnitSphere jvm (VA (Z.to_nat (levelTotalVertices level)) []) level)
            (VA (length (spherePoints (F:=F) level)) (spherePoints level))).
  { rewrite Hsphere. apply evaluates_generateUnitSphere.
    - unfold Int32.MAX_VALUE. lia.
    - apply clamp_id. exact Hlevel.
    - lia.
    - lia.
    - lia. }
  pose proof (generateIndices_spec jvm (Z.to_nat (levelTotalIndices level))
                ltac:(unfold Int32.MAX_VALUE; lia) level ltac:(lia) ltac:(lia) ltac:(lia))
    as Hidx.
  replace (length (sphereIndices level) =? Z.to_nat (levelTotalIndices level))%nat
    with false in Hidx by (symmetry; apply Nat.eqb_neq; lia).
  rewrite levelVerticesPerLine_eq.
  destruct (assertionsEnabled jvm) eqn:Hea; simpl andb in Hidx; cbv iota in Hidx.
  all: step; [apply evaluates_idiv; discriminate|].
  all: rewrite levelVerticesPerPatch_eq, levelTrianglesPerPatch_eq.
  all: rewrite levelTotalVertices_eq, levelTotalIndices_eq.
  all: step; [apply evaluates_VertexArray_new; lia|].
  all: step; [exact Hgen|].
  all: step; [apply evaluates_VertexArray_toBuffer; rewrite data_VA_full;
              unfold Int32.MAX_VALUE; lia|].
  all: rewrite applyScale_VA_full.
  all: step; [apply evaluates_translateCorners|].
  all: step; [apply evaluates_VertexArray_toBuffer; rewrite data_VA_full;
              rewrite length_map; unfold Int32.MAX_VALUE; lia|].
  all: rewrite data_VA_full.
  all: step; [apply evaluates_idiv; discriminate|].
  all: step; [apply evaluates_TriangleArray_new; lia|].
  all: rewrite Hcount32.
  - apply throws_bind_l. exact Hidx.
  - step; [exact Hidx|].
    step; [apply evaluates_allocate; lia|].
    step.
    + apply evaluates_TriangleArray_toBuffer.
      * unfold TA. cbn [TriangleArray.data]. rewrite length_filled by lia.
        unfold Int32.MAX_VALUE. lia.
      * intros Hon. rewrite Hon in Hea. discriminate.
    + unfold octasphereMesh, meshPoints, meshIndices, TA, BB, filled.
      cbn [TriangleArray.data ByteBuffer.withOrder ByteBuffer.bytes
           ByteBuffer.position length app].
      rewrite Nat.sub_0_r. apply evaluates_ret.
Qed.

End Generator.

(** ** No division by zero *)

Lemma safe_ret {A : Type} (a : A) : divisionSafe (mret a).
Proof. intros tr Htr. exact Htr. Qed.

Lemma safe_throw {A : Type} (e : Throwable) : divisionSafe (throw (A:=A) e).
Proof. intros tr Htr. exact Htr. Qed.

Lemma safe_bind {A B : Type} (m : M A) (k : A -> M B) :
  divisionSafe m -> (forall a, divisionSafe (k a)) -> divisionSafe (m ≫= k).
Proof.
  intros Hm Hk tr Htr. unfold mbind, M_bind.
  specialize (Hm tr Htr). destruct (m tr) as [[e|a] tr1]; simpl in *.
  - exact Hm.
  - apply Hk. exact Hm.
Qed.

Lemma safe_foldM {A S : Type} (body : S -> A -> M S) (l : list A) :
  (forall s a, divisionSafe (body s a)) -> forall s, divisionSafe (foldM body s l).
Proof.
  intros Hbody. induction l as [|a l IH]; intros s; simpl.
  - apply safe_ret.
  - apply safe_bind; [apply Hbody | exact IH].
Qed.

Lemma safe_divisor (d : Z) : d <> 0 -> divisionSafe (divisor d).
Proof. intros Hd tr Htr. simpl. apply Forall_cons. split; assumption. Qed.

Lemma safe_idiv (a d : Z) : d <> 0 -> divisionSafe (idiv a d).
Proof.
  intros Hd. unfold idiv. apply safe_bind; [apply safe_divisor; exact Hd|].
  intros _. destruct (d =? 0); [apply safe_throw | apply safe_ret].
Qed.

Lemma safe_fdivInt {F : Type} `{FloatOps F} (a : F) (d : Z) :
  d <> 0 -> divisionSafe (fdivInt a d).
Proof.
  intros Hd. unfold fdivInt. apply safe_bind; [apply safe_divisor; exact Hd|].
  intros _. apply safe_ret.
Qed.

Lemma safe_assert (jvm : JVM) (cond : bool) : divisionSafe (assert jvm cond).
Proof. unfold assert. destruct (_ && _); [apply safe_throw | apply safe_ret]. Qed.

Lemma safe_arrayGet {E : Type} (l : list E) (i : Z) : divisionSafe (arrayGet l i).
Proof.
  unfold arrayGet. destruct (_ || _); [apply safe_throw|].
  destruct (l !! Z.to_nat i); [apply safe_ret | apply safe_throw].
Qed.

Lemma safe_arraySet {E : Type} (l : list E) (i : Z) (v : E) :
  divisionSafe (arraySet l i v).
Proof. unfold arraySet. destruct (_ || _); [apply safe_throw | apply safe_ret]. Qed.

Lemma safe_arrayNew {E : Type} (count : Z) (zero : E) :
  divisionSafe (arrayNew count zero).
Proof. unfold arrayNew. destruct (_ <? _); [apply safe_throw | apply safe_ret]. Qed.

Lemma safe_allocate {F : Type} (cap : Z) : divisionSafe (ByteBuffer.allocate (F:=F) cap).
Proof.
  unfold ByteBuffer.allocate. destruct (_ <? _); [apply safe_throw | apply safe_ret].
Qed.

Lemma safe_put {F : Type} (cs : list (Cell F)) (buf : ByteBuffer.t F) :
  divisionSafe (ByteBuffer.put cs buf).
Proof.
  unfold ByteBuffer.put. cbv zeta. destruct (_ <? _); [apply safe_throw | apply safe_ret].
Qed.

Create HintDb safe.
#[export] Hint Resolve safe_ret safe_throw safe_assert safe_arrayGet safe_arraySet
  safe_arrayNew safe_allocate safe_put : safe.

(** Decompose a computation along its binds and loops. *)
Ltac safe_steps :=
  repeat first
    [ apply safe_bind; [|intros ?]
    | apply safe_foldM; intros ? ?
    | solve [auto with safe] ].

Section Safety.
Context {F : Type} `{FloatOps F}.
Variable jvm : JVM.

Lemma safe_VertexArray_write (this : VertexArray.t F) (v : Float3.t F) :
  divisionSafe (VertexArray_write this v).
Proof. unfold VertexArray_write. safe_steps. Qed.

Lemma safe_TriangleArray_write1 (this : TriangleArray.t) (a : Z) :
  divisionSafe (TriangleArray_write1 this a).
Proof. unfold TriangleArray_write1. safe_steps. Qed.

Lemma safe_TriangleArray_write (this : TriangleArray.t) (a b c : Z) :
  divisionSafe (TriangleArray_write this a b c).
Proof.
  unfold TriangleArray_write.
  repeat (apply safe_bind; [apply safe_TriangleArray_write1 | intros ?]).
  apply safe_TriangleArray_write1.
Qed.

Lemma safe_VertexArray_toBuffer (this : VertexArray.t F) :
  divisionSafe (VertexArray_toBuffer jvm this).
Proof. unfold VertexArray_toBuffer, ByteBuffer.putFloat. safe_steps. Qed.

Lemma safe_TriangleArray_toBuffer (this : TriangleArray.t) :
  divisionSafe (TriangleArray_toBuffer (F:=F) jvm this).
Proof. unfold TriangleArray_toBuffer, ByteBuffer.putShort. safe_steps. Qed.

(** The division by [numSegments] sits behind the early return. *)
Lemma safe_writeGeodesic (positions : VertexArray.t F) (pointA pointB : Float3.t F)
    (numSegments : Z) :
  divisionSafe (writeGeodesic positions pointA pointB numSegments).
Proof.
  unfold writeGeodesic.
  apply safe_bind; [apply safe_VertexArray_write | intros positions1].
  destruct (Z.eqb_spec numSegments 0) as [Hzero|Hnonzero].
  - apply safe_ret.
  - cbv zeta. apply safe_bind; [apply safe_fdivInt; exact Hnonzero | intros delta].
    apply safe_bind.
    + apply safe_foldM. intros positions2 i. apply safe_VertexArray_write.
    + intros positions2. apply safe_VertexArray_write.
Qed.

Lemma segments_per_line_nonzero (subdivisions : Z) :
  (1 shl clamp subdivisions 0 kOctasphereMaxSubdivisions + 1 - 1)%i32 <> 0.
Proof.
  pose proof (clamp_range subdivisions) as Hlevel.
  each_level Hlevel; vm_compute; congruence.
Qed.

Lemma safe_generateUnitSphere (positions : VertexArray.t F) (subdivisions : Z) :
  divisionSafe (generateUnitSphere jvm positions subdivisions).
Proof.
  unfold generateUnitSphere. cbv zeta.
  apply safe_bind; [apply safe_idiv; discriminate | intros verticesPerPatch].
  apply safe_bind.
  { apply safe_foldM. intros positions1 i.
    apply safe_bind; [apply safe_fdivInt; apply segments_per_line_nonzero | intros theta].
    apply safe_writeGeodesic. }
  intros positions1. apply safe_bind.
  { apply safe_foldM. intros positions2 octant.
    apply safe_bind; [apply safe_arrayGet | intros o].
    apply safe_foldM. intros positions3 i.
    apply safe_bind; [apply safe_arrayGet | intros src].
    apply safe_VertexArray_write. }
  intros positions2. safe_steps.
Qed.

(** The offsets divide by the literal 2, whatever [max] returns. *)
Lemma safe_cornerOffsets (dimensions : Float3.t F) (radius : F) :
  divisionSafe (cornerOffsets dimensions radius).
Proof.
  unfold cornerOffsets. cbv zeta.
  do 3 (apply safe_bind; [apply safe_fdivInt; discriminate | intros ?]).
  apply safe_ret.
Qed.

Lemma safe_translateCorners (positions : VertexArray.t F) (dimensions : Float3.t F)
    (radius : F) (subdivisions : Z) :
  divisionSafe (translateCorners positions dimensions radius subdivisions).
Proof.
  unfold translateCorners.
  apply safe_bind; [apply safe_cornerOffsets | intros [[tx ty] tz]]. apply safe_ret.
Qed.

Lemma safe_generateIndices (triangles : TriangleArray.t) (subdivisions : Z) :
  divisionSafe (generateIndices jvm triangles subdivisions).
Proof.
  unfold generateIndices, firstPatch, shiftedPatches. cbv zeta.
  apply safe_bind; [apply safe_idiv; discriminate | intros verticesPerPatch].
  apply safe_bind.
  { apply safe_bind.
    - apply safe_foldM. intros [triangles1 j0] colIndex.
      apply safe_bind.
      + apply safe_foldM. intros triangles2 row.
        apply safe_bind; [apply safe_TriangleArray_write | intros triangles3].
        apply safe_TriangleArray_write.
      + intros triangles2.
        apply safe_bind; [apply safe_TriangleArray_write | intros triangles3].
        apply safe_ret.
    - intros [triangles1 j0]. apply safe_ret. }
  intros triangles1. apply safe_bind.
  { apply safe_foldM. intros triangles2 octant.
    apply safe_foldM. intros triangles3 i.
    apply safe_bind; [apply safe_arrayGet | intros a].
    apply safe_TriangleArray_write1. }
  intros triangles2. safe_steps.
Qed.

Lemma safe_generateOctasphere (dimensions : Float3.t F) (radius : F) (subdivisions : Z) :
  divisionSafe (generateOctasphere jvm dimensions radius subdivisions).
Proof.
  unfold generateOctasphere, VertexArray_new, TriangleArray_new. cbv zeta.
  apply safe_bind; [apply safe_idiv; discriminate | intros verticesPerPatch].
  apply safe_bind; [safe_steps | intros positions0].
  apply safe_bind; [apply safe_generateUnitSphere | intros positions1].
  apply safe_bind; [apply safe_VertexArray_toBuffer | intros normalsBuffer].
  apply safe_bind; [apply safe_translateCorners | intros positions2].
  apply safe_bind; [apply safe_VertexArray_toBuffer | intros positionsBuffer].
  apply safe_bind; [apply safe_idiv; discriminate | intros count].
  apply safe_bind; [safe_steps | intros triangles0].
  apply safe_bind; [apply safe_generateIndices | intros triangles1].
  apply safe_bind; [apply safe_allocate | intros tangents0].
  apply safe_bind; [apply safe_TriangleArray_toBuffer | intros indexBuffer].
  apply safe_ret.
Qed.

End Safety.

(** ** Geometry in exact arithmetic *)

Lemma vec_eq (a b c a' b' c' : R) :
  a = a' -> b = b' -> c = c' -> vec a b c = vec a' b' c'.
Proof. intros -> -> ->. reflexivity. Qed.

Lemma cons_eq {A : Type} (a a' : A) (l l' : list A) :
  a = a' -> l = l' -> a :: l = a' :: l'.
Proof. intros -> ->. reflexivity. Qed.

Lemma cross_vec (a b c a' b' c' : R) :
  cross (vec a b c) (vec a' b' c')
  = vec (b * c' - c * b') (c * a' - a * c') (a * b' - b * a').
Proof. reflexivity. Qed.

Lemma dot_vec (a b c a' b' c' : R) :
  dot (vec a b c) (vec a' b' c') = (a * a' + b * b' + c * c')%R.
Proof. reflexivity. Qed.

Lemma quaternionFromRotation_vec (a b c radians : R) :
  quaternionFromRotation (vec a b c) radians
  = quat (a * sin (1 / 2 * radians)) (b * sin (1 / 2 * radians))
         (c * sin (1 / 2 * radians)) (cos (1 / 2 * radians)).
Proof. reflexivity. Qed.

Lemma quaternionRotateVector_vec (qx qy qz qw a b c : R) :
  quaternionRotateVector (quat qx qy qz qw) (vec a b c)
  = vec ((qy * c - qz * b) * 2 * qw + a
         + (qy * ((qx * b - qy * a) * 2) - qz * ((qz * a - qx * c) * 2)))
        ((qz * a - qx * c) * 2 * qw + b
         + (qz * ((qy * c - qz * b) * 2) - qx * ((qx * b - qy * a) * 2)))
        ((qx * b - qy * a) * 2 * qw + c
         + (qx * ((qz * a - qx * c) * 2) - qy * ((qy * c - qz * b) * 2))).
Proof. reflexivity. Qed.

Lemma normSq_vec (a b c : R) : normSq (vec a b c) = (a * a + b * b + c * c)%R.
Proof. reflexivity. Qed.

Lemma normSq_scalePoint (scale : R) (v : Float3.t R) :
  normSq (scalePoint scale v) = (scale * scale * normSq v)%R.
Proof. destruct v as [a b c]. unfold normSq, scalePoint. simpl. ring. Qed.

Lemma half_sq : (1 / sqrt 2 * (1 / sqrt 2) = 1 / 2)%R.
Proof.
  unfold Rdiv. rewrite !Rmult_1_l, <- Rinv_mult, sqrt_sqrt by lra. reflexivity.
Qed.

Lemma acos_half : acos (1 / 2) = (PI / 3)%R.
Proof. rewrite <- cos_PI3. apply acos_cos. pose proof PI_RGT_0. lra. Qed.

Lemma sin_PI12_sq : (sin (PI / 12) * sin (PI / 12) = (2 - sqrt 3) / 4)%R.
Proof.
  pose proof (cos_2a_sin (PI / 12)) as Hdouble.
  replace (2 * (PI / 12))%R with (PI / 6)%R in Hdouble by lra.
  rewrite cos_PI6 in Hdouble. lra.
Qed.

Lemma sqrt3_bounds : (1732 / 1000 < sqrt 3 < 1733 / 1000)%R.
Proof.
  pose proof (sqrt_sqrt 3 ltac:(lra)) as H3.
  pose proof (sqrt_pos 3) as Hpos.
  split; nra.
Qed.

(** The squared length falls short of 1 by more than three thousandths. *)
Lemma midpointNormSq_bounds : (996 / 1000 < midpointNormSq < 997 / 1000)%R.
Proof. unfold midpointNormSq. pose proof sqrt3_bounds. lra. Qed.

(** The half Euler angles of the octants, as the code computes them. *)
Lemma euler_0 : (0 * (1 / 2) * PI * (1 / 2) = 0)%R.
Proof. lra. Qed.
Lemma euler_1 : (1 * (1 / 2) * PI * (1 / 2) = PI / 4)%R.
Proof. lra. Qed.
Lemma euler_2 : (2 * (1 / 2) * PI * (1 / 2) = PI / 2)%R.
Proof. lra. Qed.
Lemma euler_3 : (3 * (1 / 2) * PI * (1 / 2) = 3 * (PI / 4))%R.
Proof. lra. Qed.

Ltac trig :=
  rewrite ?euler_0, ?euler_1, ?euler_2, ?euler_3;
  rewrite ?sin_0, ?cos_0, ?sin_PI4, ?cos_PI4, ?sin_PI2, ?cos_PI2, ?sin_3PI4, ?cos_3PI4.

Lemma lineAngle_2_0 : lineAngle (F:=R) 2 0 = 0%R.
Proof.
  unfold lineAngle. simpl. replace ((2 - 1)%i32) with 1 by reflexivity. lra.
Qed.

Lemma lineAngle_2_1 : lineAngle (F:=R) 2 1 = (PI / 2)%R.
Proof.
  unfold lineAngle. simpl. replace ((2 - 1)%i32) with 1 by reflexivity. lra.
Qed.

Lemma lineAngle_5_2 : lineAngle (F:=R) 5 2 = (PI / 4)%R.
Proof.
  unfold lineAngle. simpl. replace ((5 - 1)%i32) with 4 by reflexivity. lra.
Qed.

Lemma lineStart_0 : lineStart (F:=R) 0%R = vec 0 0 1.
Proof. unfold lineStart, vec. simpl. rewrite sin_0, cos_0. reflexivity. Qed.

Lemma lineEnd_0 : lineEnd (F:=R) 0%R = vec 1 0 0.
Proof. unfold lineEnd, vec. simpl. rewrite sin_0, cos_0. reflexivity. Qed.

Lemma lineStart_PI2 : lineStart (F:=R) (PI / 2)%R = vec 0 1 0.
Proof. unfold lineStart, vec. simpl. rewrite sin_PI2, cos_PI2. reflexivity. Qed.

Lemma lineStart_PI4 : lineStart (F:=R) (PI / 4)%R = vec 0 (1 / sqrt 2) (1 / sqrt 2).
Proof. unfold lineStart, vec. simpl. rewrite sin_PI4, cos_PI4. reflexivity. Qed.

Lemma lineEnd_PI4 : lineEnd (F:=R) (PI / 4)%R = vec (1 / sqrt 2) (1 / sqrt 2) 0.
Proof. unfold lineEnd, vec. simpl. rewrite sin_PI4, cos_PI4. reflexivity. Qed.

(** The rotations that carry the first octant onto the seven others. *)
Lemma octantQuaternions_R :
  (octantQuaternion (F:=R) 1 = quat 0 (1 / sqrt 2) 0 (1 / sqrt 2) /\
   octantQuaternion (F:=R) 2 = quat 0 1 0 0 /\
   octantQuaternion (F:=R) 3 = quat 0 (1 / sqrt 2) 0 (- (1 / sqrt 2)) /\
   octantQuaternion (F:=R) 4 = quat (1 / sqrt 2) 0 0 (1 / sqrt 2) /\
   octantQuaternion (F:=R) 5 = quat (1 / 2) (- (1 / 2)) (1 / 2) (1 / 2) /\
   octantQuaternion (F:=R) 6 = quat 0 (- (1 / sqrt 2)) (1 / sqrt 2) 0 /\
   octantQuaternion (F:=R) 7 = quat (- (1 / 2)) (- (1 / 2)) (1 / 2) (- (1 / 2)))%R.
Proof.
  pose proof half_sq as Hc.
  unfold octantQuaternion, octants, quaternionFromEulers, quat, get3, scale3. simpl.
  trig. set (c := (1 / sqrt 2)%R) in *.
  replace (-1 / sqrt 2)%R with (- c)%R by (unfold c; lra).
  repeat split; f_equal; nra.
Qed.

(** The points of level 0 and one point of level 2, for every arithmetic. *)
Lemma spherePoints_0 {F : Type} `{FloatOps F} :
  spherePoints (F:=F) 0
  = let patch := [ lineStart (lineAngle 2 0); lineEnd (lineAngle 2 0);
                   lineStart (lineAngle 2 1) ] in
    patch ++ flat_map (fun octant =>
                         map (quaternionRotateVector (octantQuaternion octant)) patch)
                      [1; 2; 3; 4; 5; 6; 7].
Proof. vm_compute. reflexivity. Qed.

Lemma spherePoints_2_10 {F : Type} `{FloatOps F} :
  spherePoints (F:=F) 2 !! 10%nat
  = Some (geodesicPoint (lineStart (lineAngle 5 2)) (lineEnd (lineAngle 5 2)) 2 1).
Proof. vm_compute. reflexivity. Qed.

(** At level 0 the generated points are the corners of the octahedron. *)
Lemma spherePoints_0_R : spherePoints (F:=R) 0 = octahedronCorners.
Proof.
  rewrite spherePoints_0. cbv zeta.
  rewrite lineAngle_2_0, lineAngle_2_1, lineStart_0, lineEnd_0, lineStart_PI2.
  unfold octahedronCorners.
  cbn [flat_map map app].
  destruct octantQuaternions_R as (-> & -> & -> & -> & -> & -> & ->).
  rewrite !quaternionRotateVector_vec.
  pose proof half_sq as Hc. set (c := (1 / sqrt 2)%R) in *.
  repeat (apply cons_eq; [apply vec_eq; nra|]). reflexivity.
Qed.

(** The middle point of a geodesic of level 2 is not on the unit sphere:
    the rotation axis [cross pointA pointB] is not normalised. *)
Lemma geodesic_midpoint_normSq :
  normSq (geodesicPoint (lineStart (PI / 4)%R) (lineEnd (PI / 4)%R) 2 1)
  = midpointNormSq.
Proof.
  rewrite lineStart_PI4, lineEnd_PI4. unfold geodesicPoint, midpointNormSq.
  rewrite cross_vec, dot_vec.
  cbn [facos fdiv fmul fofZ R_FloatOps].
  pose proof half_sq as Hc. set (c := (1 / sqrt 2)%R) in *.
  replace (0 * c + c * c + c * 0)%R with (1 / 2)%R by lra.
  rewrite acos_half.
  rewrite quaternionFromRotation_vec.
  replace (1 / 2 * (PI / 3 / 2 * 1))%R with (PI / 12)%R by lra.
  rewrite quaternionRotateVector_vec, normSq_vec.
  pose proof sin_PI12_sq as Hs.
  pose proof (sin2_cos2 (PI / 12)) as Hsc. unfold Rsqr in Hsc.
  pose proof (sqrt_sqrt 3 ltac:(lra)) as H3.
  set (s := sin (PI / 12)) in *. set (w := cos (PI / 12)) in *.
  set (r3 := sqrt 3) in *.
  transitivity (2 * (c * c) * (1 - 6 * (c * c) * (c * c) * (s * s)) ^ 2
                + 24 * (c * c) * (c * c) * (c * c) * (s * s) * (w * w))%R.
  { ring. }
  replace (w * w)%R with (1 - s * s)%R by lra.
  rewrite Hc, Hs.
  replace (3 * (7 - 4 * r3) / 64)%R with (3 * (4 - 4 * r3 + r3 * r3) / 64)%R
    by (rewrite H3; lra).
  field.
Qed.

Lemma unit_line_ends (theta : R) :
  normSq (lineStart theta) = 1%R /\ normSq (lineEnd theta) = 1%R.
Proof.
  pose proof (sin2_cos2 theta) as Hsc. unfold Rsqr in Hsc.
  unfold normSq, lineStart, lineEnd. simpl. split; lra.
Qed.

(** The length of a point of a geodesic, in general.  [writeGeodesic]
    rotates [pointA] about [cross pointA pointB] as it stands; with [K] the
    squared length of that axis, the image of a unit vector has squared
    length [1 - 4 K (1 - K) sin^4 (radians / 2)]. *)
Lemma rotation_about_cross_normSq (pointA pointB : Float3.t R) (radians : R) :
  normSq pointA = 1%R ->
  normSq (quaternionRotateVector
            (quaternionFromRotation (cross pointA pointB) radians) pointA)
  = (1 - 4 * normSq (cross pointA pointB) * (1 - normSq (cross pointA pointB))
         * sin (1 / 2 * radians) ^ 4)%R.
Proof.
  destruct pointA as [a1 a2 a3], pointB as [b1 b2 b3]. intros Hunit.
  change (Float3.make a1 a2 a3) with (vec a1 a2 a3) in *.
  change (Float3.make b1 b2 b3) with (vec b1 b2 b3) in *.
  rewrite cross_vec, quaternionFromRotation_vec, quaternionRotateVector_vec, !normSq_vec.
  rewrite normSq_vec in Hunit.
  pose proof (sin2_cos2 (1 / 2 * radians)) as Hsc. unfold Rsqr in Hsc.
  set (s := sin (1 / 2 * radians)) in *. set (w := cos (1 / 2 * radians)) in *.
  set (K := ((a2 * b3 - a3 * b2) * (a2 * b3 - a3 * b2) +
             (a3 * b1 - a1 * b3) * (a3 * b1 - a1 * b3) +
             (a1 * b2 - a2 * b1) * (a1 * b2 - a2 * b1))%R).
  transitivity ((a1 * a1 + a2 * a2 + a3 * a3)
                * ((1 - 2 * K * (s * s)) ^ 2 + 4 * (w * w) * K * (s * s)))%R.
  { unfold K. ring. }
  rewrite Hunit. replace (w * w)%R with (1 - s * s)%R by lra. ring.
Qed.

(** Between perpendicular unit vectors the axis has length 1 and the
    geodesic stays on the unit sphere. *)
Lemma geodesicPoint_perpendicular (pointA pointB : Float3.t R) (numSegments i : Z) :
  normSq pointA = 1%R ->
  normSq (cross pointA pointB) = 1%R ->
  normSq (geodesicPoint pointA pointB numSegments i) = 1%R.
Proof.
  intros Hunit Haxis. unfold geodesicPoint.
  rewrite rotation_about_cross_normSq by exact Hunit. rewrite Haxis. ring.
Qed.

(** The range assertion refuses an index that fits 16 unsigned bits but
    not a [Short]. *)
Lemma toBuffer_refuses_40000 :
  outcome (TriangleArray_toBuffer (F:=R) (jvmWith true LITTLE_ENDIAN)
             (TriangleArray.make [40000] 1))
  = inl AssertionError.
Proof. vm_compute. reflexivity. Qed.

(** ** The returned mesh *)

Section Returned.
Context {F : Type} `{FloatOps F}.

(** Without assertion checking the call returns the described mesh. *)
Lemma generateOctasphere_returns (bo : ByteOrder) (dimensions : Float3.t F) (radius : F)
    (subdivisions : Z) :
  outcome (generateOctasphere (jvmWith false bo) dimensions radius subdivisions)
  = inr (octasphereMesh bo radius (clamp subdivisions 0 kOctasphereMaxSubdivisions)).
Proof.
  apply evaluates_outcome.
  exact (generateOctasphere_spec (jvmWith false bo) dimensions radius subdivisions).
Qed.

(** With assertion checking it dies of an [AssertionError]. *)
Lemma generateOctasphere_throws (bo : ByteOrder) (dimensions : Float3.t F) (radius : F)
    (subdivisions : Z) :
  outcome (generateOctasphere (jvmWith true bo) dimensions radius subdivisions)
  = inl AssertionError.
Proof.
  apply throws_outcome.
  exact (generateOctasphere_spec (jvmWith true bo) dimensions radius subdivisions).
Qed.

Lemma meshIndices_length (level : Z) :
  0 <= level <= kOctasphereMaxSubdivisions ->
  Z.of_nat (length (meshIndices level)) = levelTotalIndices level.
Proof.
  intros Hlevel. unfold meshIndices.
  pose proof (length_sphereIndices_level level Hlevel) as Hlen.
  pose proof (level_bounds level Hlevel) as Hvpl.
  destruct (level_counts level Hlevel)
    as (_ & _ & _ & _ & _ & Hcq & Hti & _ & _ & _ & _ & Htpp).
  rewrite length_filled by lia. lia.
Qed.

Lemma meshIndices_take (level : Z) :
  take (length (sphereIndices level)) (meshIndices level) = sphereIndices level.
Proof. unfold meshIndices, filled. rewrite take_app_length. reflexivity. Qed.

Lemma validIndex_spec (numVertices i : Z) :
  validIndex numVertices i = true ->
  0 <= i < numVertices /\ i <= Short_MAX_VALUE.
Proof.
  unfold validIndex. rewrite !andb_true_iff.
  intros [[H0 H1] H2].
  apply Z.leb_le in H0. apply Z.ltb_lt in H1. apply Z.leb_le in H2. lia.
Qed.

Lemma meshIndices_valid (level : Z) :
  0 <= level <= kOctasphereMaxSubdivisions ->
  Forall (fun i => 0 <= i < levelTotalVertices level /\ i <= Short_MAX_VALUE)
         (meshIndices level).
Proof.
  intros Hlevel. unfold meshIndices, filled. apply Forall_app. split.
  - pose proof (sphereIndices_range level Hlevel) as Hrange.
    rewrite forallb_forall in Hrange. apply Forall_forall.
    intros i Hi. apply validIndex_spec. apply Hrange. apply list_elem_of_In. exact Hi.
  - apply Forall_forall. intros i Hi. apply elem_of_replicate in Hi as [-> _].
    destruct (level_counts level Hlevel)
      as (_ & _ & _ & _ & Htv & _ & _ & _ & _ & _ & Hvpp & _).
    unfold Short_MAX_VALUE. lia.
Qed.

(** The generated indices pass the range assertion of [toBuffer]. *)
Lemma generated_indices_pass (jvm : JVM) (level : Z) :
  0 <= level <= kOctasphereMaxSubdivisions ->
  evaluates
    (TriangleArray_toBuffer (F:=F) jvm
       (TA (Z.to_nat (levelTotalIndices level)) (sphereIndices level)))
    (fullBuffer (nativeOrder jvm) (encodeIndices (nativeOrder jvm) (meshIndices level))).
Proof.
  intros Hlevel.
  pose proof (meshIndices_valid level Hlevel) as Hvalid.
  pose proof (meshIndices_length level Hlevel) as Hlen.
  pose proof (level_bounds level Hlevel) as Hvpl.
  destruct (level_counts level Hlevel)
    as (_ & _ & _ & _ & _ & Hcq & Hti & _ & _ & _ & _ & Htpp).
  change (meshIndices level)
    with (TriangleArray.data (TA (Z.to_nat (levelTotalIndices level))
                                 (sphereIndices level))).
  apply evaluates_TriangleArray_toBuffer.
  - change (TriangleArray.data (TA (Z.to_nat (levelTotalIndices level))
                                   (sphereIndices level)))
      with (meshIndices level).
    unfold Int32.MAX_VALUE. lia.
  - intros _. eapply Forall_impl; [exact Hvalid|]. intros i [_ Hshort]. exact Hshort.
Qed.

End Returned.

(** ** The stages of the generator *)

Section Stages.
Context {F : Type} `{FloatOps F}.
Variable jvm : JVM.

(** The assertion that closes [generateUnitSphere] holds. *)
Lemma generateUnitSphere_level (level : Z) :
  0 <= level <= kOctasphereMaxSubdivisions ->
  evaluates
    (generateUnitSphere jvm (VA (Z.to_nat (levelTotalVertices level)) []) level)
    (VA (Z.to_nat (levelTotalVertices level)) (spherePoints (F:=F) level)).
Proof.
  intros Hlevel.
  destruct (level_counts level Hlevel)
    as (_ & _ & _ & _ & Htv & _ & _ & _ & _ & _ & Hvpp & _).
  pose proof (length_patchPoints (F:=F) level Hlevel) as Hpatch.
  apply evaluates_generateUnitSphere.
  - unfold Int32.MAX_VALUE. lia.
  - apply clamp_id. exact Hlevel.
  - lia.
  - lia.
  - lia.
Qed.

(** The assertion that closes [generateIndices] does not: the array is
    sized for the connection quads, which are never written. *)
Lemma generateIndices_level (level : Z) :
  0 <= level <= kOctasphereMaxSubdivisions ->
  Z.of_nat (length (sphereIndices level)) < levelTotalIndices level /\
  if assertionsEnabled jvm
  then throws (generateIndices jvm (TA (Z.to_nat (levelTotalIndices level)) []) level)
              AssertionError
  else evaluates (generateIndices jvm (TA (Z.to_nat (levelTotalIndices level)) []) level)
                 (TA (Z.to_nat (levelTotalIndices level)) (sphereIndices level)).
Proof.
  intros Hlevel.
  destruct (level_counts level Hlevel)
    as (_ & _ & _ & Hipp & _ & Hcq & Hti & _ & _ & _ & _ & Htpp).
  pose proof (level_bounds level Hlevel) as Hvpl.
  pose proof (length_patchIndices level Hlevel) as Hpatch.
  pose proof (length_sphereIndices_level level Hlevel) as Hlen.
  split; [lia|].
  pose proof (generateIndices_spec jvm (Z.to_nat (levelTotalIndices level))
                ltac:(unfold Int32.MAX_VALUE; lia) level ltac:(lia) ltac:(lia) ltac:(lia))
    as Hidx.
  replace (length (sphereIndices level) =? Z.to_nat (levelTotalIndices level))%nat
    with false in Hidx by (symmetry; apply Nat.eqb_neq; lia).
  destruct (assertionsEnabled jvm); exact Hidx.
Qed.

Lemma length_meshPoints (radius : F) (level : Z) :
  0 <= level <= kOctasphereMaxSubdivisions ->
  Z.of_nat (length (meshPoints radius level)) = levelTotalVertices level.
Proof.
  intros Hlevel. unfold meshPoints. rewrite length_map, length_spherePoints by exact Hlevel.
  destruct (level_counts level Hlevel)
    as (_ & _ & _ & _ & Htv & _ & _ & _ & _ & _ & Hvpp & _).
  lia.
Qed.

(** Record [i] of a packed position buffer is vertex [i]. *)
Lemma encodePositions_record (bo : ByteOrder) (points : list (Float3.t F)) :
  forall (i : nat) (v : Float3.t F),
    points !! i = Some v ->
    take 12 (drop (12 * i) (encodePositions bo points))
    = ByteBuffer.floatCells bo (Float3.x v) ++
      ByteBuffer.floatCells bo (Float3.y v) ++
      ByteBuffer.floatCells bo (Float3.z v).
Proof.
  induction points as [|p points IH]; intros i v Hv; [discriminate|].
  unfold encodePositions. simpl flat_map.
  fold (encodePositions bo points).
  set (cells := ByteBuffer.floatCells bo (Float3.x p) ++
                ByteBuffer.floatCells bo (Float3.y p) ++
                ByteBuffer.floatCells bo (Float3.z p)).
  assert (Hcells : length cells = 12%nat).
  { unfold cells. rewrite !length_app, !length_floatCells. reflexivity. }
  destruct i as [|i].
  - injection Hv as <-. rewrite Nat.mul_0_r, drop_0.
    rewrite take_app_length' by (symmetry; exact Hcells). reflexivity.
  - replace (12 * S i)%nat with (length cells + 12 * i)%nat by lia.
    rewrite drop_app_add. apply IH. exact Hv.
Qed.

(** Value [j] of a packed index buffer is index [j], truncated to 16 bits. *)
Lemma encodeIndices_record (bo : ByteOrder) (idx : list Z) :
  forall (j : nat) (a : Z),
    idx !! j = Some a ->
    take 2 (drop (2 * j) (encodeIndices (F:=F) bo idx))
    = ByteBuffer.shortCells bo (Int32.toShort a).
Proof.
  induction idx as [|p idx IH]; intros j a Ha; [discriminate|].
  unfold encodeIndices. simpl flat_map.
  fold (encodeIndices (F:=F) bo idx).
  set (cells := ByteBuffer.shortCells (F:=F) bo (Int32.toShort p)).
  assert (Hcells : length cells = 2%nat) by apply length_shortCells.
  destruct j as [|j].
  - injection Ha as <-. rewrite Nat.mul_0_r, drop_0.
    rewrite take_app_length' by (symmetry; exact Hcells). reflexivity.
  - replace (2 * S j)%nat with (length cells + 2 * j)%nat by lia.
    rewrite drop_app_add. apply IH. exact Ha.
Qed.

End Stages.

(** ** Direct runs

    The array code run as it is, against the description, at level 0. *)

Section DirectRuns.
Context {F : Type} `{FloatOps F}.
Variables (dimensions : Float3.t F) (radius : F).

Example run_level0 :
  run (generateOctasphere (jvmWith false LITTLE_ENDIAN) dimensions radius 0)
  = (inr (octasphereMesh LITTLE_ENDIAN radius 0), [2; 3; 2; 2; 2; 1; 1; 1; 2; 2]).
Proof.
  vm_cast_no_check
    (eq_refl (inr (A:=Throwable) (octasphereMesh LITTLE_ENDIAN radius 0),
              [2; 3; 2; 2; 2; 1; 1; 1; 2; 2])).
Qed.

Example run_level0_checked :
  outcome (generateOctasphere (jvmWith true LITTLE_ENDIAN) dimensions radius 0)
  = inl AssertionError.
Proof. vm_compute. reflexivity. Qed.

Example indices_level0 :
  outcome (generateIndices (jvmWith false LITTLE_ENDIAN) (TA 132 []) 0)
  = inr (TA 132 [0; 1; 2; 3; 4; 5; 6; 7; 8; 9; 10; 11; 12; 13; 14; 15; 16; 17; 18;
                 19; 20; 21; 22; 23]).
Proof. vm_compute. reflexivity. Qed.

Example indices_level1_patch :
  patchIndices (levelVerticesPerLine 1) = [0; 1; 3; 3; 1; 4; 1; 2; 4; 3; 4; 5].
Proof. vm_compute. reflexivity. Qed.

End DirectRuns.

(** ** The claims *)

(** C1, counterexample.  At subdivision level 0 the call returns a mesh of
    24 vertices, not 8. *)
Lemma level0_vertex_count_not_8 :
  exists mesh,
    outcome (generateOctasphere (F:=R) (jvmWith false LITTLE_ENDIAN)
               (vec 0 0 0) 1%R 0) = inr mesh /\
    numVertices mesh = 24 /\
    numVertices mesh <> 8.
Proof.
  exists (octasphereMesh LITTLE_ENDIAN 1%R 0).
  split; [apply generateOctasphere_returns|].
  unfold octasphereMesh, numVertices.
  replace (levelTotalVertices 0) with 24 by (vm_compute; reflexivity).
  split; [reflexivity | discriminate].
Qed.

(** C1, as amended.  For subdivision level 0, [generateOctasphere] returns
    a mesh with 24 vertices, three for each of the eight patches, and in
    exact arithmetic its positions are the corners of the eight faces of
    the octahedron with vertices [(+-radius,0,0)], [(0,+-radius,0)],
    [(0,0,+-radius)]: every position is one of the six vertices and every
    vertex occurs. *)
Theorem level0_octahedron (bo : ByteOrder) (dimensions : Float3.t R) (radius : R) :
  exists mesh,
    outcome (generateOctasphere (jvmWith false bo) dimensions radius 0) = inr mesh /\
    numVertices mesh = 24 /\
    positions mesh
    = fullBuffer bo (encodePositions bo (map (scalePoint radius) octahedronCorners)) /\
    (forall v, In v octahedronCorners <-> In v octahedronVertices).
Proof.
  exists (octasphereMesh bo radius 0). split; [|split; [|split]].
  - apply generateOctasphere_returns.
  - unfold octasphereMesh, numVertices. vm_compute. reflexivity.
  - unfold octasphereMesh, positions, meshPoints. rewrite spherePoints_0_R. reflexivity.
  - intros v. unfold octahedronCorners, octahedronVertices. simpl. tauto.
Qed.

(** C2, counterexample.  At level 0 the call returns a mesh whose index
    count is 132, not [trianglesPerPatch * 8 * 3 = 24]. *)
Lemma level0_index_count_not_24 :
  exists mesh,
    outcome (generateOctasphere (F:=R) (jvmWith false LITTLE_ENDIAN)
               (vec 0 0 0) 1%R 0) = inr mesh /\
    numIndices mesh = 132 /\
    levelTrianglesPerPatch 0 * 8 * 3 = 24 /\
    numIndices mesh <> levelTrianglesPerPatch 0 * 8 * 3.
Proof.
  exists (octasphereMesh LITTLE_ENDIAN 1%R 0).
  split; [apply generateOctasphere_returns|].
  unfold octasphereMesh, numIndices.
  replace (levelTotalIndices 0) with 132 by (vm_compute; reflexivity).
  replace (levelTrianglesPerPatch 0) with 1 by (vm_compute; reflexivity).
  split; [reflexivity | split; [reflexivity | discriminate]].
Qed.

(** C2, as amended.  For every subdivision argument, with [level] its value
    clamped to 0..5, the returned index count is
    [(trianglesPerPatch * 8 + numConnectionQuads * 2) * 3], where
    [numConnectionQuads = 12 * (verticesPerLine - 1) + 6]; the first
    [trianglesPerPatch * 8 * 3] cells of the index buffer hold the patch
    triangles, and every cell of the index buffer lies in
    [0, vertexCount). *)
Theorem index_count_and_range {F : Type} `{FloatOps F} (bo : ByteOrder)
    (dimensions : Float3.t F) (radius : F) (subdivisions : Z) :
  let level := clamp subdivisions 0 kOctasphereMaxSubdivisions in
  let verticesPerLine := levelVerticesPerLine level in
  let trianglesPerPatch := levelTrianglesPerPatch level in
  let numConnectionQuads := levelConnectionQuads level in
  exists mesh,
    outcome (generateOctasphere (jvmWith false bo) dimensions radius subdivisions)
    = inr mesh /\
    verticesPerLine = 2 ^ level + 1 /\
    trianglesPerPatch
    = (verticesPerLine - 2) * (verticesPerLine - 1) + verticesPerLine - 1 /\
    numConnectionQuads = 12 * (verticesPerLine - 1) + 6 /\
    numIndices mesh = (trianglesPerPatch * 8 + numConnectionQuads * 2) * 3 /\
    indices mesh = fullBuffer bo (encodeIndices bo (meshIndices level)) /\
    Z.of_nat (length (meshIndices level)) = numIndices mesh /\
    Z.of_nat (length (sphereIndices level)) = trianglesPerPatch * 8 * 3 /\
    take (length (sphereIndices level)) (meshIndices level) = sphereIndices level /\
    Forall (fun i => 0 <= i < numVertices mesh) (meshIndices level).
Proof.
  intros level verticesPerLine trianglesPerPatch numConnectionQuads.
  pose proof (clamp_range subdivisions) as Hlevel. fold level in Hlevel.
  destruct (level_counts level Hlevel)
    as (Hvpl & _ & Htpp & _ & _ & Hcq & Hti & _ & _ & _ & _ & _).
  exists (octasphereMesh bo radius level).
  unfold octasphereMesh at 2 3 4 5. cbn [numIndices numVertices indices].
  repeat split.
  - apply generateOctasphere_returns.
  - exact Hvpl.
  - exact Htpp.
  - exact Hcq.
  - exact Hti.
  - apply meshIndices_length. exact Hlevel.
  - apply length_sphereIndices_level. exact Hlevel.
  - apply meshIndices_take.
  - eapply Forall_impl; [apply meshIndices_valid; exact Hlevel|].
    intros i [Hi _]. exact Hi.
Qed.

(** C3.  Every index [generateOctasphere] hands to the index buffer lies in
    [0, 65535], the index buffer is their packed 16-bit image, none cut
    by the conversion to [Short], and the
    bound is enforced by the assertion of [TriangleArray.toBuffer]: the
    generated indices pass it, and whenever assertions are checked
    [toBuffer] returns only if every index of the array is at most
    [Short.MAX_VALUE = 32767 <= 65535]. *)
Theorem index_range_enforced {F : Type} `{FloatOps F} (bo : ByteOrder)
    (dimensions : Float3.t F) (radius : F) (subdivisions : Z) :
  let level := clamp subdivisions 0 kOctasphereMaxSubdivisions in
  (exists mesh,
     outcome (generateOctasphere (jvmWith false bo) dimensions radius subdivisions)
     = inr mesh /\
     indices mesh = fullBuffer bo (encodeIndices bo (meshIndices level)) /\
     Forall (fun i => 0 <= i <= 65535 /\ Int32.toShort i = i) (meshIndices level)) /\
  outcome (TriangleArray_toBuffer (F:=F) (jvmWith true bo)
             (TA (Z.to_nat (levelTotalIndices level)) (sphereIndices level)))
  = inr (fullBuffer bo (encodeIndices bo (meshIndices level))) /\
  (forall (this : TriangleArray.t) (buf : ByteBuffer.t F),
     outcome (TriangleArray_toBuffer (jvmWith true bo) this) = inr buf ->
     Forall (fun i => i <= 65535) (TriangleArray.data this)).
Proof.
  intros level.
  pose proof (clamp_range subdivisions) as Hlevel. fold level in Hlevel.
  pose proof (meshIndices_valid level Hlevel) as Hvalid.
  pose proof (meshIndices_length level Hlevel) as Hlen.
  pose proof (level_bounds level Hlevel) as Hvpl.
  destruct (level_counts level Hlevel)
    as (_ & _ & _ & _ & _ & Hcq & Hti & _ & _ & _ & _ & Htpp).
  split; [|split].
  - exists (octasphereMesh bo radius level). split; [|split].
    + apply generateOctasphere_returns.
    + reflexivity.
    + eapply Forall_impl; [exact Hvalid|].
      intros i [Hi Hshort]. unfold Short_MAX_VALUE in Hshort.
      split; [lia | apply toShort_small; lia].
  - apply evaluates_outcome.
    exact (generated_indices_pass (jvmWith true bo) level Hlevel).
  - intros this buf Hout.
    eapply Forall_impl.
    + exact (TriangleArray_toBuffer_checked (jvmWith true bo) this buf eq_refl Hout).
    + intros i Hshort. unfold Short_MAX_VALUE in Hshort. simpl in Hshort. lia.
Qed.

(** C3, witness: the assertion lets an array of small indices through. *)
Lemma index_range_enforced_witness :
  outcome (TriangleArray_toBuffer (F:=R) (jvmWith true LITTLE_ENDIAN)
             (TriangleArray.make [0; 1; 2] 3))
  = inr (fullBuffer LITTLE_ENDIAN (encodeIndices LITTLE_ENDIAN [0; 1; 2])) /\
  Forall (fun i => i <= 65535) [0; 1; 2].
Proof.
  assert (Hout :
    outcome (TriangleArray_toBuffer (F:=R) (jvmWith true LITTLE_ENDIAN)
               (TriangleArray.make [0; 1; 2] 3))
    = inr (fullBuffer LITTLE_ENDIAN (encodeIndices LITTLE_ENDIAN [0; 1; 2])))
    by (vm_compute; reflexivity).
  split; [exact Hout|].
  exact (proj2 (proj2 (index_range_enforced (F:=R) LITTLE_ENDIAN (vec 0 0 0) 1%R 0))
           (TriangleArray.make [0; 1; 2] 3) _ Hout).
Defined.

(** C4.  A subdivision argument above 5 gives exactly the outcome of the
    argument 5: nothing is signalled on account of the argument, the call
    returns when assertions are not checked, and the level in effect lies
    in [0, 5] with [verticesPerLine = 2 ^ level + 1]. *)
Theorem subdivisions_clamped {F : Type} `{FloatOps F} (jvm : JVM)
    (dimensions : Float3.t F) (radius : F) (subdivisions : Z) :
  kOctasphereMaxSubdivisions < subdivisions ->
  let level := clamp subdivisions 0 kOctasphereMaxSubdivisions in
  generateOctasphere jvm dimensions radius subdivisions
  = generateOctasphere jvm dimensions radius kOctasphereMaxSubdivisions /\
  returns (generateOctasphere (jvmWith false (nativeOrder jvm)) dimensions radius
             subdivisions) = true /\
  level = kOctasphereMaxSubdivisions /\
  0 <= level <= 5 /\
  levelVerticesPerLine level = 2 ^ level + 1.
Proof.
  intros Habove level.
  assert (Hlevel : level = kOctasphereMaxSubdivisions).
  { unfold level, clamp, kOctasphereMaxSubdivisions in *.
    destruct (Z.ltb_spec subdivisions 0); [lia|].
    destruct (Z.ltb_spec 5 subdivisions); lia. }
  split; [|split; [|split; [|split]]].
  - unfold generateOctasphere. fold level. rewrite Hlevel. reflexivity.
  - unfold returns. rewrite generateOctasphere_returns. reflexivity.
  - exact Hlevel.
  - rewrite Hlevel. unfold kOctasphereMaxSubdivisions. lia.
  - rewrite Hlevel. vm_compute. reflexivity.
Qed.

(** C4, witness: the argument 9. *)
Lemma subdivisions_clamped_witness :
  kOctasphereMaxSubdivisions < 9 /\
  generateOctasphere (F:=R) (jvmWith true LITTLE_ENDIAN) (vec 0 0 0) 1%R 9
  = generateOctasphere (jvmWith true LITTLE_ENDIAN) (vec 0 0 0) 1%R
      kOctasphereMaxSubdivisions.
Proof.
  assert (Habove : kOctasphereMaxSubdivisions < 9) by reflexivity.
  split; [exact Habove|].
  exact (proj1 (subdivisions_clamped (F:=R) (jvmWith true LITTLE_ENDIAN) (vec 0 0 0)
                  1%R 9 Habove)).
Defined.

(** C5 (the code departs from the claim).  At subdivision level 2,
    [generateUnitSphere] draws line 2 of the first patch by calling
    [writeGeodesic] on the unit vectors [pointA = (0, sin (pi/4), cos (pi/4))]
    and [pointB = (cos (pi/4), sin (pi/4), 0)] with two segments.  The
    point it interpolates has squared length [1 - 3 (7 - 4 sqrt 3) / 64],
    below 0.997, in exact arithmetic: it is not on the unit sphere. *)
Theorem geodesic_leaves_unit_sphere :
  let theta := lineAngle (F:=R) (levelVerticesPerLine 2) 2 in
  let pointA := lineStart theta in
  let pointB := lineEnd theta in
  let v := geodesicPoint pointA pointB 2 1 in
  theta = (PI / 4)%R /\
  linePoints (levelVerticesPerLine 2) 2 = geodesicPoints pointA pointB 2 /\
  outcome (writeGeodesic (VA 3 []) pointA pointB 2) = inr (VA 3 [pointA; v; pointB]) /\
  normSq pointA = 1%R /\
  normSq pointB = 1%R /\
  normSq v = midpointNormSq /\
  (midpointNormSq < 997 / 1000)%R.
Proof.
  intros theta pointA pointB v.
  assert (Htheta : theta = (PI / 4)%R) by apply lineAngle_5_2.
  split; [exact Htheta|]. split; [reflexivity|].
  split; [|split; [|split; [|split]]].
  - apply evaluates_outcome.
    change [pointA; v; pointB] with ([] ++ geodesicPoints pointA pointB 2).
    apply evaluates_writeGeodesic.
    + unfold Int32.MAX_VALUE. simpl. lia.
    + simpl. lia.
  - apply unit_line_ends.
  - apply unit_line_ends.
  - unfold v, pointA, pointB. rewrite Htheta. apply geodesic_midpoint_normSq.
  - apply midpointNormSq_bounds.
Qed.

(** C6 (the code departs from the claim).  For the sphere of every radius
    at subdivision level 2, vertex 10 of the returned positions has squared
    length [radius^2 * (1 - 3 (7 - 4 sqrt 3) / 64)] in exact arithmetic,
    that is a magnitude below [0.9985 * radius]. *)
Theorem sphere_vertex_inside (bo : ByteOrder) (radius : R) :
  exists mesh p,
    outcome (generateOctasphere (jvmWith false bo) (vec 0 0 0) radius 2) = inr mesh /\
    positions mesh = fullBuffer bo (encodePositions bo (meshPoints radius 2)) /\
    meshPoints radius 2 !! 10%nat = Some p /\
    normSq p = (radius * radius * midpointNormSq)%R /\
    (996 / 1000 < midpointNormSq < 997 / 1000)%R.
Proof.
  exists (octasphereMesh bo radius 2).
  exists (scalePoint radius
            (geodesicPoint (lineStart (PI / 4)%R) (lineEnd (PI / 4)%R) 2 1)).
  split; [|split; [|split; [|split]]].
  - apply generateOctasphere_returns.
  - reflexivity.
  - unfold meshPoints. rewrite list_lookup_fmap, spherePoints_2_10, lineAngle_5_2.
    reflexivity.
  - rewrite normSq_scalePoint, geodesic_midpoint_normSq. reflexivity.
  - apply midpointNormSq_bounds.
Qed.

(** C7.  No run of [generateOctasphere] divides by zero, whatever the
    radius and the dimensions: every divisor it uses is non-zero.  The
    translation offsets are [(max (dimension, 2 radius) - 2 radius) / 2], a
    division by the literal 2, and [writeGeodesic] called with no segment
    returns after writing [pointA], before its division. *)
Theorem no_division_by_zero {F : Type} `{FloatOps F} (jvm : JVM)
    (dimensions : Float3.t F) (radius : F) (subdivisions : Z) :
  Forall (fun d => d <> 0)
         (divisors (generateOctasphere jvm dimensions radius subdivisions)) /\
  run (cornerOffsets dimensions radius)
  = (inr (fdiv (fmax (Float3.x dimensions) (radius * fofZ 2) - radius * fofZ 2)%f
               (fofZ 2),
          fdiv (fmax (Float3.y dimensions) (radius * fofZ 2) - radius * fofZ 2)%f
               (fofZ 2),
          fdiv (fmax (Float3.z dimensions) (radius * fofZ 2) - radius * fofZ 2)%f
               (fofZ 2)),
     [2; 2; 2]) /\
  (forall (positions : VertexArray.t F) (pointA pointB : Float3.t F) (tr : Trace),
     writeGeodesic positions pointA pointB 0 tr = VertexArray_write positions pointA tr /\
     snd (writeGeodesic positions pointA pointB 0 tr) = tr).
Proof.
  split; [|split].
  - unfold divisors, run.
    change (nonzeroDivisors
              (snd (generateOctasphere jvm dimensions radius subdivisions []))).
    apply safe_generateOctasphere. apply List.Forall_nil.
  - reflexivity.
  - intros positions pointA pointB tr.
    assert (Hsame : writeGeodesic positions pointA pointB 0 tr
                    = VertexArray_write positions pointA tr).
    { unfold writeGeodesic. change (0 =? 0) with true. cbv iota.
      unfold mbind, M_bind. destruct (VertexArray_write positions pointA tr) as [[e|a] tr1];
        reflexivity. }
    split; [exact Hsame|]. rewrite Hsame.
    unfold VertexArray_write, arraySet, mbind, M_bind, mret, M_ret, throw.
    destruct (_ || _); reflexivity.
Qed.

(** C8.  The returned buffers are sized to the returned counts, 12 bytes a
    vertex for the positions, 16 bytes a vertex for the tangents and 2
    bytes an index for the indices; the positions are packed records of
    three floats, the indices packed 16-bit values and the tangents zero,
    the three buffers in native byte order. *)
Theorem buffers_sized_and_packed {F : Type} `{FloatOps F} (bo : ByteOrder)
    (dimensions : Float3.t F) (radius : F) (subdivisions : Z) :
  exists mesh points idx,
    outcome (generateOctasphere (jvmWith false bo) dimensions radius subdivisions)
    = inr mesh /\
    ByteBuffer.capacity (positions mesh) = numVertices mesh * 12 /\
    ByteBuffer.capacity (tangents mesh) = numVertices mesh * 16 /\
    ByteBuffer.capacity (indices mesh) = numIndices mesh * 2 /\
    ByteBuffer.order (positions mesh) = bo /\
    ByteBuffer.order (tangents mesh) = bo /\
    ByteBuffer.order (indices mesh) = bo /\
    Z.of_nat (length points) = numVertices mesh /\
    Z.of_nat (length idx) = numIndices mesh /\
    ByteBuffer.bytes (positions mesh) = encodePositions bo points /\
    ByteBuffer.bytes (indices mesh) = encodeIndices bo idx /\
    ByteBuffer.bytes (tangents mesh)
    = replicate (Z.to_nat (numVertices mesh * 16)) (Raw 0).
Proof.
  pose proof (clamp_range subdivisions) as Hlevel.
  set (level := clamp subdivisions 0 kOctasphereMaxSubdivisions) in *.
  pose proof (length_meshPoints radius level Hlevel) as Hpoints.
  pose proof (meshIndices_length level Hlevel) as Hidx.
  destruct (level_counts level Hlevel)
    as (_ & _ & _ & _ & Htv & _ & _ & _ & _ & Htan & Hvpp & _).
  exists (octasphereMesh bo radius level), (meshPoints radius level), (meshIndices level).
  split; [apply generateOctasphere_returns|].
  unfold octasphereMesh, fullBuffer, ByteBuffer.capacity.
  cbn [numVertices numIndices positions tangents indices
       ByteBuffer.bytes ByteBuffer.order].
  rewrite length_encodePositions, length_encodeIndices, length_replicate, Htan.
  repeat split; try reflexivity; lia.
Qed.

(** C9 (the code departs from the claim).  With assertions checked, every
    call of [generateOctasphere] dies of the assertion that closes
    [generateIndices]: fewer indices are written than the array holds.
    The assertion of [generateUnitSphere] holds, and the range assertion
    of [toBuffer], which the call never reaches, would hold too. *)
Theorem generateIndices_assertion_fails {F : Type} `{FloatOps F} (bo : ByteOrder)
    (dimensions : Float3.t F) (radius : F) (subdivisions : Z) :
  let level := clamp subdivisions 0 kOctasphereMaxSubdivisions in
  let jvm := jvmWith true bo in
  outcome (generateOctasphere jvm dimensions radius subdivisions) = inl AssertionError /\
  outcome (generateUnitSphere jvm (VA (Z.to_nat (levelTotalVertices level)) []) level)
  = inr (VA (Z.to_nat (levelTotalVertices level)) (spherePoints level)) /\
  outcome (generateIndices jvm (TA (Z.to_nat (levelTotalIndices level)) []) level)
  = inl AssertionError /\
  Z.of_nat (length (sphereIndices level)) < levelTotalIndices level /\
  outcome (TriangleArray_toBuffer (F:=F) jvm
             (TA (Z.to_nat (levelTotalIndices level)) (sphereIndices level)))
  = inr (fullBuffer bo (encodeIndices bo (meshIndices level))).
Proof.
  intros level jvm.
  pose proof (clamp_range subdivisions) as Hlevel. fold level in Hlevel.
  destruct (generateIndices_level jvm level Hlevel) as [Hshort Hthrows].
  split; [|split; [|split; [|split]]].
  - apply generateOctasphere_throws.
  - apply evaluates_outcome. apply generateUnitSphere_level. exact Hlevel.
  - apply throws_outcome. exact Hthrows.
  - exact Hshort.
  - apply evaluates_outcome. exact (generated_indices_pass jvm level Hlevel).
Qed.

(** C10.  The outcome of [generateOctasphere] is the same for all values
    of [dimensions]: [translateCorners] returns the vertices it was given. *)
Theorem dimensions_ignored {F : Type} `{FloatOps F} (jvm : JVM)
    (dimensions dimensions' : Float3.t F) (radius : F) (subdivisions : Z) :
  outcome (generateOctasphere jvm dimensions radius subdivisions)
  = outcome (generateOctasphere jvm dimensions' radius subdivisions) /\
  (forall (positions : VertexArray.t F) (level : Z),
     outcome (translateCorners positions dimensions radius level) = inr positions).
Proof.
  split.
  - destruct jvm as [[|] bo].
    + change {| assertionsEnabled := true; nativeOrder := bo |} with (jvmWith true bo).
      rewrite !generateOctasphere_throws. reflexivity.
    + change {| assertionsEnabled := false; nativeOrder := bo |} with (jvmWith false bo).
      rewrite !generateOctasphere_returns. reflexivity.
  - intros positions level. apply evaluates_outcome. apply evaluates_translateCorners.
Qed.
